(** * EnsembleTabPFN: a shallow embedding of [ensemble_tabpfn.py]

    The estimator is a Python object whose attributes live in its
    [__dict__]; its methods call collaborators that are not part of the
    file (the samplers, the bounded classifier, scikit-learn helpers).
    The embedding keeps that shape:

    - the attribute dictionary is a [gmap string pyval];
    - a method is a computation in the monad [M], which threads the
      object, the hidden state of the collaborators and two ghost logs,
      and which may raise;
    - a call site goes through [bind_args], the argument binding Python
      performs before a function body runs;
    - floats are IEEE binary64 ([PrimFloat]), integers are [Z]; an integer
      operand of float arithmetic is converted as Python converts it. *)

From Stdlib Require Import ZArith QArith PrimFloat SpecFloat FloatOps Lia.
From stdpp Require Import gmap strings list fin_maps pretty.

Open Scope string_scope.
Open Scope Z_scope.
Open Scope list_scope.

(** ** Exceptions and results *)

(** The exceptions this module raises itself, and [External] for anything
    raised inside a collaborator (keyed by a description of it). *)
Inductive exn : Type :=
| ValueError (msg : string)
| TypeError (msg : string)
| AttributeError (msg : string)
| IndexError (msg : string)
| NotFittedError (msg : string)
| OverflowError (msg : string)
| External (what : string).

Inductive result (A : Type) : Type :=
| Ok (a : A)
| Raise (e : exn).
Arguments Ok {A} a.
Arguments Raise {A} e.

(** ** Argument binding at a call site

    [sig_params] are the parameters after [self]; the last [sig_defaults]
    of them have default values.  [bind_args sg npos kws] is what Python
    does with [npos] positional arguments and the keyword names [kws]:
    keywords are matched first, then the positional count is checked,
    then the parameters left without a value. *)
Record pysig : Type := PySig {
  sig_name : string;
  sig_params : list string;
  sig_defaults : nat
}.

Definition mem_string (s : string) (l : list string) : bool :=
  existsb (String.eqb s) l.

Definition required_params (sg : pysig) : list string :=
  take (length (sig_params sg) - sig_defaults sg)%nat (sig_params sg).

Definition missing_params (sg : pysig) (npos : nat) (kws : list string) : list string :=
  filter (fun p => negb (mem_string p kws)) (drop npos (required_params sg)).

Definition bind_args (sg : pysig) (npos : nat) (kws : list string) : result unit :=
  match List.find (fun k => negb (mem_string k (sig_params sg))) kws with
  | Some k =>
      Raise (TypeError (sig_name sg +:+ "() got an unexpected keyword argument '" +:+ k +:+ "'"))
  | None =>
      match List.find (fun k => mem_string k (take npos (sig_params sg))) kws with
      | Some k =>
          Raise (TypeError (sig_name sg +:+ "() got multiple values for argument '" +:+ k +:+ "'"))
      | None =>
          if (length (sig_params sg) <? npos)%nat then
            Raise (TypeError (sig_name sg +:+ "() takes " +:+ pretty (S (length (sig_params sg)))
                              +:+ " positional arguments but " +:+ pretty (S npos) +:+ " were given"))
          else
            match missing_params sg npos kws with
            | [] => Ok tt
            | [p] =>
                Raise (TypeError (sig_name sg
                                  +:+ "() missing 1 required positional argument: '" +:+ p +:+ "'"))
            | p :: ps =>
                Raise (TypeError (sig_name sg +:+ "() missing " +:+ pretty (S (length ps))
                                  +:+ " required positional arguments: '"
                                  +:+ String.concat "', '" (p :: ps) +:+ "'"))
            end
      end
  end.

(** ** The collaborators

    Everything the file imports and calls but does not define.  Each
    operation may raise ([inl], with a description of the exception) or
    return ([inr]), and may
    read and change the hidden state [World]: random generators, the
    fitted samplers, the fitted classifier. *)
Class Collaborators : Type := {
  Matrix : Type;          (* a 2-d array of features *)
  Target : Type;          (* a 1-d array of labels *)
  Indices : Type;         (* the row indices a data sampler drew *)
  FeatSamplers : Type;    (* what [FeatureSampler.get_samplers] returns,
                             taken as a value of its own at each call *)
  Proba : Type;           (* a rows x classes array of probabilities *)
  Sampler : Type;         (* a [DataSampler] object *)
  FSampler : Type;        (* a [FeatureSampler] object *)
  Clf : Type;             (* a [TabPFNClassifier] object *)
  World : Type;
  DEVICE : string;
  (* sklearn *)
  check_X_y : Matrix -> Target -> string + Matrix * Target;
  train_test_split :
    Matrix -> Target -> option Z -> World ->
    (string + Matrix * Matrix * Target * Target) * World;
  accuracy_score : Target -> Target -> World -> (string + float) * World;
  (* .samplers *)
  get_data_sampler : string -> Z -> World -> (string + Sampler) * World;
  sampler_sample :
    Sampler -> Matrix -> Target -> World -> (string + Matrix * Target * Indices) * World;
  new_FeatureSampler : Z -> World -> (string + FSampler) * World;
  fs_sample : FSampler -> Matrix -> option Target -> World -> (string + list Matrix) * World;
  fs_reduce : FSampler -> Matrix -> World -> (string + list Matrix) * World;
  fs_get_samplers : FSampler -> World -> (string + FeatSamplers) * World;
  (* tabpfn *)
  new_TabPFNClassifier : string -> Z -> World -> (string + Clf) * World;
  clf_fit : Clf -> Matrix -> Target -> World -> (string + unit) * World;
  clf_predict : Clf -> Matrix -> World -> (string + Target) * World;
  clf_predict_proba : Clf -> Matrix -> World -> (string + Proba) * World;
  (* .utils: the [data] attribute of an [Ensemble], and [Result.aggregate]
     returning the [preds] and the [probs] it leaves on the [Result] *)
  ensemble_data : Indices -> FeatSamplers -> World -> (string + Matrix * Target) * World;
  aggregate : list Proba -> World -> (string + Target * Proba) * World
}.

(** Modelled from the spec: [TabPFNConstants] of [utils.py], which is not
    among the sources.  The spec and the constructor's docstring give the
    global caps as 1000 rows and 100 features. *)
Definition MAX_INP_SIZE : Z := 1000.
Definition MAX_FEAT_SIZE : Z := 100.

Section Estimator.
Context `{C : Collaborators}.

(** Modelled from the spec: [Ensemble] of [utils.py], which is not among
    the sources.  It is built with the two keyword arguments below (source
    line 136) and the spec describes it as the record of a row index set
    and a feature partitioning. *)
Record Ensemble : Type := mkEnsemble {
  data_indices : Indices;
  feat_samplers : FeatSamplers
}.

(** The values an attribute of the estimator can hold. *)
Inductive pyval : Type :=
| PyNone
| PyInt (z : Z)
| PyFloat (f : float)
| PyStr (s : string)
| PySampler (h : Sampler)
| PyFSampler (h : FSampler)
| PyClf (h : Clf)
| PyEnsemble (e : Ensemble)
| PyList (l : list Ensemble).

(** Calls of [fit], [predict] and [predict_proba] on a classifier, logged
    in order just before each is made. *)
Inductive clf_call : Type :=
| CallFit
| CallPredict
| CallPredictProba.

(** One completed pass through the body of the fit loop: the scores of
    the feature groups it evaluated, the row indices it drew and the
    feature samplers it read back. *)
Record iteration : Type := mkIteration {
  it_scores : list float;
  it_indices : Indices;
  it_samplers : FeatSamplers
}.

Definition it_member (it : iteration) : Ensemble :=
  mkEnsemble (it_indices it) (it_samplers it).

Record state : Type := mkState {
  attrs : gmap string pyval;   (* self.__dict__ *)
  world : World;               (* hidden state of the collaborators *)
  clf_log : list clf_call;     (* ghost: classifier calls made so far *)
  fit_log : list iteration     (* ghost: completed fit iterations *)
}.

(** ** The monad *)

Definition M (A : Type) : Type := state -> result A * state.

Definition ret {A} (a : A) : M A := fun s => (Ok a, s).

Definition raise {A} (e : exn) : M A := fun s => (Raise e, s).

Definition bind {A B} (c : M A) (k : A -> M B) : M B :=
  fun s =>
    match c s with
    | (Ok a, s') => k a s'
    | (Raise e, s') => (Raise e, s')
    end.

Definition lift {A} (r : result A) : M A := fun s => (r, s).

(** A collaborator call: its exception surfaces as [External]. *)
Definition ext {A} (f : World -> (string + A) * World) : M A :=
  fun s =>
    match f (world s) with
    | (inr a, w) => (Ok a, mkState (attrs s) w (clf_log s) (fit_log s))
    | (inl e, w) => (Raise (External e), mkState (attrs s) w (clf_log s) (fit_log s))
    end.

Definition getattr (name : string) : M pyval :=
  fun s =>
    match attrs s !! name with
    | Some v => (Ok v, s)
    | None =>
        (Raise (AttributeError ("'EnsembleTabPFN' object has no attribute '" +:+ name +:+ "'")), s)
    end.

Definition setattr (name : string) (v : pyval) : M unit :=
  fun s => (Ok tt, mkState (<[name := v]> (attrs s)) (world s) (clf_log s) (fit_log s)).

Definition log_clf (c : clf_call) : M unit :=
  fun s => (Ok tt, mkState (attrs s) (world s) (clf_log s ++ [c]) (fit_log s)).

(** Recorded once per pass through the body of the fit loop, right after
    the member of that pass is appended (source line 139). *)
Definition log_iteration (it : iteration) : M unit :=
  fun s => (Ok tt, mkState (attrs s) (world s) (clf_log s) (fit_log s ++ [it])).

End Estimator.

Declare Scope py_scope.
Delimit Scope py_scope with py.
Notation "x <- c ;; k" := (bind c (fun x => k))
  (at level 100, c at next level, right associativity) : py_scope.
Notation "c ;;; k" := (bind c (fun _ => k))
  (at level 100, right associativity) : py_scope.

Open Scope py_scope.

(** ** Reading attributes at the type an operation needs *)

Section Coercions.
Context `{C : Collaborators}.

Definition type_name (v : pyval) : string :=
  match v with
  | PyNone => "NoneType"
  | PyInt _ => "int"
  | PyFloat _ => "float"
  | PyStr _ => "str"
  | PySampler _ => "DataSampler"
  | PyFSampler _ => "FeatureSampler"
  | PyClf _ => "TabPFNClassifier"
  | PyEnsemble _ => "Ensemble"
  | PyList _ => "list"
  end.

(** An operand that must be an [int]: the argument of [range], the
    right-hand side of [no_improvement >= ...], the classifier's
    [N_ensemble_configurations].  The constructor stores integers there. *)
Definition as_int (v : pyval) : M Z :=
  match v with
  | PyInt z => ret z
  | _ => raise (TypeError ("'" +:+ type_name v +:+ "' object cannot be interpreted as an integer"))
  end.

(** [float(z)] for an integer: the nearest binary64 value, ties to even;
    the result is infinite exactly when Python raises [OverflowError]. *)
Definition float_of_Z (z : Z) : float :=
  SF2Prim (binary_normalize prec emax z 0 false).

(** The right operand of [best_loss - self.tolerance]: a float as it is,
    an integer converted to the nearest float. *)
Definition as_float (v : pyval) : M float :=
  match v with
  | PyFloat f => ret f
  | PyInt z =>
      if is_infinity (float_of_Z z)
      then raise (OverflowError "int too large to convert to float")
      else ret (float_of_Z z)
  | _ => raise (TypeError ("unsupported operand type(s) for -: 'float' and '" +:+ type_name v +:+ "'"))
  end.

(** [random_state] is [None] or an [int]. *)
Definition as_seed (v : pyval) : M (option Z) :=
  match v with
  | PyNone => ret None
  | PyInt z => ret (Some z)
  | _ => raise (External (type_name v +:+ " cannot be used to seed a RandomState instance"))
  end.

Definition as_sampler (v : pyval) : M Sampler :=
  match v with
  | PySampler h => ret h
  | _ => raise (AttributeError ("'" +:+ type_name v +:+ "' object has no attribute 'sample'"))
  end.

Definition as_fsampler (meth : string) (v : pyval) : M FSampler :=
  match v with
  | PyFSampler h => ret h
  | _ => raise (AttributeError ("'" +:+ type_name v +:+ "' object has no attribute '" +:+ meth +:+ "'"))
  end.

Definition as_clf (meth : string) (v : pyval) : M Clf :=
  match v with
  | PyClf h => ret h
  | _ => raise (AttributeError ("'" +:+ type_name v +:+ "' object has no attribute '" +:+ meth +:+ "'"))
  end.

Definition as_list (meth : string) (v : pyval) : M (list Ensemble) :=
  match v with
  | PyList l => ret l
  | _ => raise (AttributeError ("'" +:+ type_name v +:+ "' object has no attribute '" +:+ meth +:+ "'"))
  end.

(** The operand of a subscript. *)
Definition as_subscriptable (v : pyval) : M (list Ensemble) :=
  match v with
  | PyList l => ret l
  | _ => raise (TypeError ("'" +:+ type_name v +:+ "' object is not subscriptable"))
  end.

Definition of_seed (o : option Z) : pyval :=
  match o with
  | None => PyNone
  | Some z => PyInt z
  end.

(** [range(n)]: the number of values it yields. *)
Definition py_range (v : pyval) : M nat :=
  n <- as_int v ;; ret (Z.to_nat n).

(** [iter(v)], as the header of a [for] statement calls it. *)
Definition py_iter (v : pyval) : M (list pyval) :=
  match v with
  | PyList l => ret (map PyEnsemble l)
  | PyStr s => ret (map (fun c => PyStr (String c EmptyString)) (String.list_ascii_of_string s))
  | _ => raise (TypeError ("'" +:+ type_name v +:+ "' object is not iterable"))
  end.

(** [l[i]] on a list. *)
Definition py_index (l : list Ensemble) (i : pyval) : M Ensemble :=
  match i with
  | PyInt z =>
      let k := if z <? 0 then z + Z.of_nat (length l) else z in
      if k <? 0 then raise (IndexError "list index out of range")
      else match l !! Z.to_nat k with
           | Some e => ret e
           | None => raise (IndexError "list index out of range")
           end
  | _ => raise (TypeError ("list indices must be integers or slices, not " +:+ type_name i))
  end.

(** A method call on [self]: bind the arguments, then run the body. *)
Definition call {A} (sg : pysig) (npos : nat) (kws : list string) (body : M A) : M A :=
  lift (bind_args sg npos kws) ;;; body.

(** ** [EnsembleTabPFN.__init__] (source lines 19-82) *)

Definition cap_message (param : string) (cap got : Z) : string :=
  param +:+ " must be less than or equal to " +:+ pretty cap +:+ ", got " +:+ pretty got.

Definition __init__
    (max_iters : Z) (data_sampler : string) (n_samples n_features : Z)
    (random_state : option Z) (early_stopping_rounds : Z) (tolerance : float)
    (n_ensemble_configurations : Z) : M unit :=
  if negb (n_samples <=? MAX_INP_SIZE) then
    raise (ValueError (cap_message "n_samples" MAX_INP_SIZE n_samples))
  else if negb (n_features <=? MAX_FEAT_SIZE) then
    raise (ValueError (cap_message "n_features" MAX_FEAT_SIZE n_features))
  else
    setattr "n_samples" (PyInt n_samples) ;;;
    setattr "n_features" (PyInt n_features) ;;;
    ds <- ext (get_data_sampler data_sampler n_samples) ;;
    setattr "data_sampler" (PySampler ds) ;;;
    fs <- ext (new_FeatureSampler n_features) ;;
    setattr "feature_sampler" (PyFSampler fs) ;;;
    setattr "max_iters" (PyInt max_iters) ;;;
    setattr "random_state" (of_seed random_state) ;;;
    setattr "early_stopping_rounds" (PyInt early_stopping_rounds) ;;;
    setattr "tolerance" (PyFloat tolerance) ;;;
    m <- ext (new_TabPFNClassifier DEVICE n_ensemble_configurations) ;;
    setattr "model" (PyClf m).

(** A new object: an empty [__dict__], nothing logged. *)
Definition fresh (w : World) : state := mkState ∅ w [] [].

End Coercions.

(** ** The methods of [EnsembleTabPFN] *)

(** The [def] lines of the class as the source has them. *)
Definition _data_subsample_def : pysig :=
  PySig "EnsembleTabPFN._data_subsample" ["X"; "y"] 0.
Definition _feat_subsample_def : pysig :=
  PySig "EnsembleTabPFN._feat_subsample" ["X"; "y"; "transform"] 2.
Definition _generate_ensembles_def : pysig :=
  PySig "EnsembleTabPFN._generate_ensembles" ["X"; "y"] 0.
Definition _predict_def : pysig :=
  PySig "EnsembleTabPFN._predict" ["X"; "model"] 0.

Section Methods.
Context `{C : Collaborators}.

(** The fit loop calls [self._data_subsample] with the keyword argument
    [random_state].  The method is looked up on [self] when the call is
    made, and whether the call binds depends on the parameter list of the
    method found there.  The loop is therefore defined over that
    parameter list: [_data_subsample_def] is the one the class itself
    gives it, and the facts proved for every parameter list hold for the
    class as written and for any whose [_data_subsample] takes the
    keyword. *)
Variable data_subsample_def : pysig.

(** Source lines 84-90.  The body is the same whatever the parameters
    are: only [X] and [y] are read. *)
Definition _data_subsample (X : Matrix) (y : Target) : M (Matrix * Target * Indices) :=
  ds <- (v <- getattr "data_sampler" ;; as_sampler v) ;;
  ext (sampler_sample ds X y).

(** Source lines 92-100. *)
Definition _feat_subsample (X : Matrix) (y : option Target) (transform : bool)
  : M (list Matrix) :=
  if transform then
    fs <- (v <- getattr "feature_sampler" ;; as_fsampler "reduce" v) ;;
    ext (fs_reduce fs X)
  else
    fs <- (v <- getattr "feature_sampler" ;; as_fsampler "sample" v) ;;
    ext (fs_sample fs X y).

(** Source lines 130-135: the early-stopping bookkeeping for one score. *)
Definition score_group (best_loss : float) (no_improvement : Z) (tolerance loss : float)
  : float * Z :=
  if PrimFloat.ltb loss (PrimFloat.sub best_loss tolerance)
  then (loss, 0)
  else (best_loss, no_improvement + 1).

(** Source lines 113-114: the local function [evaluate]. *)
Definition evaluate (y y_hat : Target) : M float :=
  ext (accuracy_score y y_hat).

(** Source lines 123-135: the loop over the zipped feature groups.  It
    carries [best_loss] and [no_improvement], and collects the scores. *)
Fixpoint eval_groups (pairs : list (Matrix * Matrix)) (_y y_val : Target)
    (vars : float * Z) (scores : list float) : M (float * Z * list float) :=
  match pairs with
  | [] => ret (vars, scores)
  | (train_new, test_new) :: rest =>
      m <- (v <- getattr "model" ;; as_clf "fit" v) ;;
      log_clf CallFit ;;;
      ext (clf_fit m train_new _y) ;;;
      m <- (v <- getattr "model" ;; as_clf "predict" v) ;;
      log_clf CallPredict ;;;
      y_hat <- ext (clf_predict m test_new) ;;
      loss <- evaluate y_val y_hat ;;
      tolerance <- (v <- getattr "tolerance" ;; as_float v) ;;
      eval_groups rest _y y_val
        (score_group (fst vars) (snd vars) tolerance loss) (scores ++ [loss])
  end.

(** [self.ensembles_.append(ensemble)], source line 139. *)
Definition append_ensemble (e : Ensemble) : M unit :=
  l <- (v <- getattr "ensembles_" ;; as_list "append" v) ;;
  setattr "ensembles_" (PyList (l ++ [e])).

(** Source lines 118-141: one pass through the body of the [for] loop.
    Returns the loop variables and whether [break] was reached. *)
Definition epoch_body (X_train X_val : Matrix) (y_train y_val : Target)
    (vars : float * Z) : M (float * Z * bool) :=
  _ <- getattr "random_state" ;;
  sampled <- call data_subsample_def 2 ["random_state"] (_data_subsample X_train y_train) ;;
  let '(_x, _y, indices) := sampled in
  train_x_sampled_features <-
    call _feat_subsample_def 2 [] (_feat_subsample _x (Some _y) false) ;;
  test_x_sampled_features <-
    call _feat_subsample_def 1 ["transform"] (_feat_subsample X_val None true) ;;
  evaluated <-
    eval_groups (zip train_x_sampled_features test_x_sampled_features) _y y_val vars [] ;;
  let '(vars', scores) := evaluated in
  fs <- (v <- getattr "feature_sampler" ;; as_fsampler "get_samplers" v) ;;
  samplers <- ext (fs_get_samplers fs) ;;
  append_ensemble (mkEnsemble indices samplers) ;;;
  log_iteration (mkIteration scores indices samplers) ;;;
  early_stopping_rounds <- (v <- getattr "early_stopping_rounds" ;; as_int v) ;;
  ret (vars', snd vars' >=? early_stopping_rounds).

(** Source lines 117-141: [for epoch in range(n)], leaving at [break]. *)
Fixpoint epochs (n : nat) (X_train X_val : Matrix) (y_train y_val : Target)
    (vars : float * Z) : M unit :=
  match n with
  | O => ret tt
  | S n' =>
      r <- epoch_body X_train X_val y_train y_val vars ;;
      if snd r then ret tt
      else epochs n' X_train X_val y_train y_val (fst r)
  end.

(** Source lines 102-141. *)
Definition _generate_ensembles (X : Matrix) (y : Target) : M unit :=
  random_state <- (v <- getattr "random_state" ;; as_seed v) ;;
  parts <- ext (train_test_split X y random_state) ;;
  let '(X_train, X_val, y_train, y_val) := parts in
  n <- (v <- getattr "max_iters" ;; py_range v) ;;
  epochs n X_train X_val y_train y_val (infinity, 0).

(** Source lines 143-155. *)
Definition fit (X : Matrix) (y : Target) : M unit :=
  checked <- ext (fun w => (check_X_y X y, w)) ;;
  setattr "ensembles_" (PyList []) ;;;
  call _generate_ensembles_def 2 [] (_generate_ensembles (fst checked) (snd checked)).

(** [sklearn.utils.validation.check_is_fitted(self, attributes=name)]:
    the estimator counts as fitted when it has the attribute. *)
Definition check_is_fitted (name : string) : M unit :=
  fun s =>
    match attrs s !! name with
    | Some _ => (Ok tt, s)
    | None =>
        (Raise (NotFittedError "This EnsembleTabPFN instance is not fitted yet."), s)
    end.

(** Source lines 177-182: the loop over the zipped feature groups of one
    member, appending to [result.raw_preds]. *)
Fixpoint predict_groups (pairs : list (Matrix * Matrix)) (_y : Target) (model : Clf)
    (raw_preds : list Proba) : M (list Proba) :=
  match pairs with
  | [] => ret raw_preds
  | (train_new, test_new) :: rest =>
      log_clf CallFit ;;;
      ext (clf_fit model train_new _y) ;;;
      log_clf CallPredictProba ;;;
      p <- ext (clf_predict_proba model test_new) ;;
      predict_groups rest _y model (raw_preds ++ [p])
  end.

(** Source lines 173-182: the body of [for itr in ...], for each value
    the iterator yields. *)
Fixpoint predict_members (its : list pyval) (X : Matrix) (model : Clf)
    (raw_preds : list Proba) : M (list Proba) :=
  match its with
  | [] => ret raw_preds
  | itr :: rest =>
      l <- (v <- getattr "ensembles_" ;; as_subscriptable v) ;;
      e <- py_index l itr ;;
      d <- ext (ensemble_data (data_indices e) (feat_samplers e)) ;;
      train_x_sampled_features <-
        call _feat_subsample_def 2 [] (_feat_subsample (fst d) (Some (snd d)) false) ;;
      test_x_sampled_features <-
        call _feat_subsample_def 1 ["transform"] (_feat_subsample X None true) ;;
      raw <-
        predict_groups (zip train_x_sampled_features test_x_sampled_features)
          (snd d) model raw_preds ;;
      predict_members rest X model raw
  end.

(** Source lines 165-184.  The parameter [model] is rebound on the first
    line before it is read. *)
Definition _predict (X : Matrix) (model : pyval) : M (list Proba) :=
  n <- (v <- getattr "n_ensemble_configurations" ;; as_int v) ;;
  model <- ext (new_TabPFNClassifier DEVICE n) ;;
  check_is_fitted "ensembles_" ;;;
  its <- (v <- getattr "max_iters" ;; py_iter v) ;;
  predict_members its X model [].

(** Source lines 186-203.  [self._predict(X)] passes one argument; were
    the call to bind, [model] would still be unset, hence [PyNone]. *)
Definition predict (X : Matrix) : M Target :=
  raw <- call _predict_def 1 [] (_predict X PyNone) ;;
  agg <- ext (aggregate raw) ;;
  ret (fst agg).

(** Source lines 205-222. *)
Definition predict_proba (X : Matrix) : M Proba :=
  raw <- call _predict_def 1 [] (_predict X PyNone) ;;
  agg <- ext (aggregate raw) ;;
  ret (snd agg).

End Methods.

(** ** A small concrete set of collaborators

    Used to run the methods on concrete inputs.  The world holds a script
    of the scores [accuracy_score] will hand out, the number of feature
    groups the feature sampler produces, and a counter of the row samples
    drawn so far, which serves as the drawn index set. *)
Record script : Type := mkScript {
  sc_scores : list float;
  sc_groups : nat;
  sc_draws : nat
}.

Definition scripted : Collaborators := {|
  Matrix := unit;
  Target := unit;
  Indices := nat;
  FeatSamplers := nat;
  Proba := unit;
  Sampler := unit;
  FSampler := unit;
  Clf := unit;
  World := script;
  DEVICE := "cpu";
  check_X_y := fun X y => inr (X, y);
  train_test_split := fun X y _ w => (inr (X, X, y, y), w);
  accuracy_score := fun _ _ w =>
    match sc_scores w with
    | [] => (inl "the script holds no further score", w)
    | s :: rest => (inr s, mkScript rest (sc_groups w) (sc_draws w))
    end;
  get_data_sampler := fun _ _ w => (inr tt, w);
  sampler_sample := fun _ X y w =>
    (inr (X, y, sc_draws w), mkScript (sc_scores w) (sc_groups w) (S (sc_draws w)));
  new_FeatureSampler := fun _ w => (inr tt, w);
  fs_sample := fun _ _ _ w => (inr (replicate (sc_groups w) tt), w);
  fs_reduce := fun _ _ w => (inr (replicate (sc_groups w) tt), w);
  fs_get_samplers := fun _ w => (inr (sc_groups w), w);
  new_TabPFNClassifier := fun _ _ w => (inr tt, w);
  clf_fit := fun _ _ _ w => (inr tt, w);
  clf_predict := fun _ _ w => (inr tt, w);
  clf_predict_proba := fun _ _ w => (inr tt, w);
  ensemble_data := fun _ _ w => (inr (tt, tt), w);
  aggregate := fun _ w => (inr (tt, tt), w)
|}.

(** A parameter list for [_data_subsample] that takes the keyword the fit
    loop passes. *)
Definition _data_subsample_with_seed : pysig :=
  PySig "EnsembleTabPFN._data_subsample" ["X"; "y"; "random_state"] 1.

(** The estimator built by the constructor on the scripted collaborators,
    with the source's defaults for what is not given. *)
Definition built (max_iters early_stopping_rounds : Z) (tolerance : float) (w : script)
  : result unit * @state scripted :=
  @__init__ scripted max_iters "bootstrap" MAX_INP_SIZE MAX_FEAT_SIZE None
    early_stopping_rounds tolerance 4 (@fresh scripted w).

(** ** The result accumulator *)

Module Accumulator.

(** Modelled from the spec: [Result] of [utils.py], which is not among
    the sources.  The spec describes [aggregate] as the element-wise mean
    of the collected probability arrays, which must all have the same
    shape, and as failing with a shape-mismatch condition that names the
    dimensions otherwise.  Entries are exact rationals here; what the spec
    leaves open (an empty collection) is reported as [NoPredictions]. *)
Record ndarray : Type := mkArray {
  shape : nat * nat;
  rows : list (list Q)
}.

Inductive failure : Type :=
| ShapeMismatch (expected got : nat * nat)
| NoPredictions.

Definition well_shaped (a : ndarray) : Prop :=
  length (rows a) = fst (shape a) /\
  Forall (fun r => length r = snd (shape a)) (rows a).

Definition row_sum (r : list Q) : Q := fold_right Qplus 0%Q r.

Definition row_stochastic (a : ndarray) : Prop :=
  Forall (fun r => (row_sum r == 1)%Q) (rows a).

Definition same_shape (a b : ndarray) : bool :=
  Nat.eqb (fst (shape a)) (fst (shape b)) && Nat.eqb (snd (shape a)) (snd (shape b)).

Definition add_rows (r1 r2 : list Q) : list Q := zip_with Qplus r1 r2.

Definition add_arrays (m1 m2 : list (list Q)) : list (list Q) := zip_with add_rows m1 m2.

Definition scale (c : Q) (m : list (list Q)) : list (list Q) := map (map (Qmult c)) m.

Definition count (l : list ndarray) : Q := inject_Z (Z.of_nat (length l)).

Definition aggregate (raw_preds : list ndarray) : failure + ndarray :=
  match raw_preds with
  | [] => inl NoPredictions
  | p :: ps =>
      match List.find (fun q => negb (same_shape p q)) ps with
      | Some q => inl (ShapeMismatch (shape p) (shape q))
      | None =>
          inr (mkArray (shape p)
                 (scale (/ count raw_preds) (fold_left add_arrays (map rows ps) (rows p))))
      end
  end.

(** The entry at row [i], column [j], when there is one. *)
Definition entry (m : list (list Q)) (i j : nat) : option Q :=
  match m !! i with
  | Some r => r !! j
  | None => None
  end.

(** The sum of the entries at [i], [j] over a collection of arrays. *)
Definition entry_total (l : list ndarray) (i j : nat) : Q :=
  fold_right Qplus 0%Q (map (fun a => default 0%Q (entry (rows a) i j)) l).

(** Rows of width [c] that each sum to [k]. *)
Definition rows_sum_to (c : nat) (k : Q) (m : list (list Q)) : Prop :=
  Forall (fun r => length r = c /\ (row_sum r == k)%Q) m.

End Accumulator.

(** ** Vocabulary of the properties *)

Section Vocabulary.
Context `{C : Collaborators}.

(** A relation between the state before and after a computation holds
    whatever the computation returns or raises. *)
Definition preserves {A} (R : state -> state -> Prop) (c : M A) : Prop :=
  forall s r s', c s = (r, s') -> R s s'.

(** What a relation needs for the generic preservation lemmas: it is
    reflexive, transitive, and blind to the collaborators' state. *)
Definition framing (R : state -> state -> Prop) : Prop :=
  (forall s, R s s) /\
  (forall x y z, R x y -> R y z -> R x z) /\
  (forall s w, R s (mkState (attrs s) w (clf_log s) (fit_log s))).

(** Only the collaborators and the classifier log moved. *)
Definition same_self (s s' : state) : Prop :=
  attrs s' = attrs s /\ fit_log s' = fit_log s.

(** Nothing was asked of the classifier and nothing was retained. *)
Definition untouched (s s' : state) : Prop :=
  attrs s' = attrs s /\ fit_log s' = fit_log s /\ clf_log s' = clf_log s.

(** The retained members, when [ensembles_] is a list. *)
Definition members (s : state) : option (list Ensemble) :=
  match attrs s !! "ensembles_" with
  | Some (PyList l) => Some l
  | _ => None
  end.

(** Between [s] and [s'] some fit iterations [T] completed; each retained
    its member, in order, and no other attribute changed. *)
Definition retained (T : list iteration) (s s' : state) : Prop :=
  fit_log s' = fit_log s ++ T /\
  (forall k, k <> "ensembles_" -> attrs s' !! k = attrs s !! k) /\
  (T = [] -> attrs s' = attrs s) /\
  (forall l, members s = Some l -> members s' = Some (l ++ map it_member T)).

(** The loop variables after the scores of one iteration. *)
Definition after_scores (tolerance : float) (vars : float * Z) (scores : list float)
  : float * Z :=
  fold_left (fun v loss => score_group (fst v) (snd v) tolerance loss) scores vars.

(** The early-stopping loop read off the completed iterations: from the
    loop variables [vars] and with [n] passes left, the iterations [T] are
    what the loop runs. *)
Fixpoint stops (tolerance : float) (patience : Z) (n : nat) (vars : float * Z)
    (T : list iteration) : Prop :=
  match n, T with
  | O, [] => True
  | S n', it :: T' =>
      let vars' := after_scores tolerance vars (it_scores it) in
      if snd vars' >=? patience then T' = []
      else stops tolerance patience n' vars' T'
  | _, _ => False
  end.

(** The attributes the fit loop reads, at the types the constructor
    stores them. *)
Definition configured (s : state) (n patience : Z) (tolerance : float) : Prop :=
  attrs s !! "max_iters" = Some (PyInt n) /\
  attrs s !! "early_stopping_rounds" = Some (PyInt patience) /\
  attrs s !! "tolerance" = Some (PyFloat tolerance).

(** The estimator with [ensembles_] set to a given list beforehand. *)
Definition with_members (l : list Ensemble) (s : state) : state :=
  mkState (<["ensembles_" := PyList l]> (attrs s)) (world s) (clf_log s) (fit_log s).


End Vocabulary.

(** ** Concrete estimators on the scripted collaborators *)

(** Patience 2, budget 10, tolerance 0; every score is 0.5.  [groups] is
    the number of feature groups per iteration. *)
Definition flat_scores (groups : nat) : @state scripted :=
  snd (built 10 2 0%float (mkScript (replicate 8 0.5%float) groups 0)).

(** An estimator that holds two members and has
    [n_ensemble_configurations] set from outside. *)
Definition holding_members : @state scripted :=
  mkState
    (<["n_ensemble_configurations" := PyInt 4]>
       (<["ensembles_" := PyList [mkEnsemble (0%nat : @Indices scripted) (1%nat : @FeatSamplers scripted);
                                  mkEnsemble (1%nat : @Indices scripted) (1%nat : @FeatSamplers scripted)]]>
          (attrs (flat_scores 1))))
    (world (flat_scores 1)) [] [].

Module AccumulatorExamples.
Import Accumulator.

Definition half_half : ndarray :=
  mkArray (2, 2)%nat [[1 # 2; 1 # 2]; [1 # 4; 3 # 4]]%Q.
Definition sure : ndarray :=
  mkArray (2, 2)%nat [[1; 0]; [0; 1]]%Q.
Definition three_classes : ndarray :=
  mkArray (2, 3)%nat [[1; 0; 0]; [0; 1; 0]]%Q.

End AccumulatorExamples.

(** ** Vocabulary of the further properties *)

Section RunVocabulary.
Context `{C : Collaborators}.

(** The classifier calls of [k] scored feature groups: a [fit] and then a
    [predict] for each. *)
Definition clf_pairs (k : nat) : list clf_call :=
  concat (replicate k [CallFit; CallPredict]).

(** The calls a run has added to the classifier log: whole pairs, and a
    lone [fit] when the run raised between the two calls of a pair. *)
Definition called (k : nat) (extra : list clf_call) (s s' : state) : Prop :=
  clf_log s' = clf_log s ++ clf_pairs k ++ extra /\
  (extra = [] \/ extra = [CallFit]).

(** The number of scores over some completed iterations. *)
Definition total_scores (T : list iteration) : nat :=
  length (concat (map it_scores T)).

(** The names the constructor stores. *)
Definition init_names : gset string :=
  {[ "n_samples"; "n_features"; "data_sampler"; "feature_sampler"; "max_iters";
     "random_state"; "early_stopping_rounds"; "tolerance"; "model" ]}.

End RunVocabulary.

(** An estimator with a budget that is not positive. *)
Definition no_budget : @state scripted :=
  snd (built (-3) 2 0%float (mkScript [0.5%float] 1 0)).

(** An estimator built with a seed. *)
Definition seeded : @state scripted :=
  snd (@__init__ scripted 10 "bootstrap" MAX_INP_SIZE MAX_FEAT_SIZE (Some 42) 2 0%float 4
         (@fresh scripted (mkScript (replicate 8 0.5%float) 1 0))).

(** An estimator with tolerance 0.125 whose three feature groups score
    0.5, then 0.875, then 0.25. *)
Definition rising_scores : @state scripted :=
  snd (built 10 2 0.125%float (mkScript [0.5%float; 0.875%float; 0.25%float] 3 0)).

(** The scripted collaborators with a validation that rejects every
    input, as [check_X_y] does when the numbers of rows and of labels
    differ. *)
Definition rejecting : Collaborators := {|
  Matrix := unit;
  Target := unit;
  Indices := nat;
  FeatSamplers := nat;
  Proba := unit;
  Sampler := unit;
  FSampler := unit;
  Clf := unit;
  World := script;
  DEVICE := "cpu";
  check_X_y := fun _ _ => inl "Found input variables with inconsistent numbers of samples";
  train_test_split := @train_test_split scripted;
  accuracy_score := @accuracy_score scripted;
  get_data_sampler := @get_data_sampler scripted;
  sampler_sample := @sampler_sample scripted;
  new_FeatureSampler := @new_FeatureSampler scripted;
  fs_sample := @fs_sample scripted;
  fs_reduce := @fs_reduce scripted;
  fs_get_samplers := @fs_get_samplers scripted;
  new_TabPFNClassifier := @new_TabPFNClassifier scripted;
  clf_fit := @clf_fit scripted;
  clf_predict := @clf_predict scripted;
  clf_predict_proba := @clf_predict_proba scripted;
  ensemble_data := @ensemble_data scripted;
  aggregate := @aggregate scripted
|}.

(** An estimator on them that holds one member from before. *)
Definition holding_one : @state rejecting :=
  @with_members rejecting
    [@mkEnsemble rejecting 5%nat 9%nat]
    (snd (@__init__ rejecting 10 "bootstrap" MAX_INP_SIZE MAX_FEAT_SIZE None 2 0%float 4
            (@fresh rejecting (mkScript [0.5%float] 1 0)))).

(** * Properties *)

(** ** The monad *)

Section MonadFacts.
Context `{C : Collaborators}.

Lemma bind_inv {A B} (c : M A) (k : A -> M B) s r s' :
  bind c k s = (r, s') ->
  (exists a s1, c s = (Ok a, s1) /\ k a s1 = (r, s')) \/
  (exists e, c s = (Raise e, s') /\ r = Raise e).
Proof.
  unfold bind. destruct (c s) as [[a | e] s1]; intros H.
  - left. eauto.
  - right. inversion H; subst. eauto.
Qed.

Lemma bind_Ok {A B} (c : M A) (k : A -> M B) s a s1 :
  c s = (Ok a, s1) -> bind c k s = k a s1.
Proof. unfold bind. intros ->. reflexivity. Qed.

Lemma bind_Raise {A B} (c : M A) (k : A -> M B) s e s1 :
  c s = (Raise e, s1) -> bind c k s = (Raise e, s1).
Proof. unfold bind. intros ->. reflexivity. Qed.

Lemma getattr_inv name s r s' :
  getattr name s = (r, s') ->
  s' = s /\
  ((exists v, attrs s !! name = Some v /\ r = Ok v) \/
   (attrs s !! name = None /\ exists msg, r = Raise (AttributeError msg))).
Proof.
  unfold getattr. destruct (attrs s !! name) as [v |]; intros H; inversion H; subst.
  - split; [reflexivity | left; eauto].
  - split; [reflexivity | right; eauto].
Qed.

Lemma getattr_Some name s v :
  attrs s !! name = Some v -> getattr name s = (Ok v, s).
Proof. unfold getattr. intros ->. reflexivity. Qed.

Lemma ext_inv {A} (f : World -> (string + A) * World) s r s' :
  ext f s = (r, s') ->
  attrs s' = attrs s /\ fit_log s' = fit_log s /\ clf_log s' = clf_log s /\
  world s' = snd (f (world s)) /\
  r = match fst (f (world s)) with inr a => Ok a | inl e => Raise (External e) end.
Proof.
  unfold ext. destruct (f (world s)) as [[e | a] w]; intros H; inversion H; subst; simpl; auto.
Qed.

Lemma framing_same_self : framing same_self.
Proof.
  unfold framing, same_self. repeat split; simpl; try tauto.
  - destruct H as [H _], H0 as [H0 _]. congruence.
  - destruct H as [_ H], H0 as [_ H0]. congruence.
Qed.

Lemma framing_untouched : framing untouched.
Proof.
  unfold framing, untouched. repeat split; simpl; try tauto.
  - destruct H as (H & _ & _), H0 as (H0 & _ & _). congruence.
  - destruct H as (_ & H & _), H0 as (_ & H0 & _). congruence.
  - destruct H as (_ & _ & H), H0 as (_ & _ & H0). congruence.
Qed.

Section Framed.
Variable R : state -> state -> Prop.
Hypothesis HR : framing R.

Lemma preserves_ret {A} (a : A) : preserves R (ret a).
Proof. intros s r s' H. inversion H; subst. apply HR. Qed.

Lemma preserves_raise {A} e : preserves R (@raise _ A e).
Proof. intros s r s' H. inversion H; subst. apply HR. Qed.

Lemma preserves_lift {A} (x : result A) : preserves R (lift x).
Proof. intros s r s' H. inversion H; subst. apply HR. Qed.

Lemma preserves_getattr name : preserves R (getattr name).
Proof. intros s r s' H. apply getattr_inv in H as [-> _]. apply HR. Qed.

Lemma preserves_ext {A} (f : World -> (string + A) * World) : preserves R (ext f).
Proof.
  intros s r s'. unfold ext. destruct (f (world s)) as [[e | a] w];
    intros H; inversion H; subst; apply HR.
Qed.

Lemma preserves_bind {A B} (c : M A) (k : A -> M B) :
  preserves R c -> (forall a, preserves R (k a)) -> preserves R (bind c k).
Proof.
  intros Hc Hk s r s' H. apply bind_inv in H as [(a & s1 & H1 & H2) | (e & H1 & _)].
  - destruct HR as (_ & Htrans & _). eapply Htrans; [eapply Hc | eapply Hk]; eauto.
  - eapply Hc; eauto.
Qed.

Lemma preserves_check_is_fitted name : preserves R (check_is_fitted name).
Proof.
  intros s r s'. unfold check_is_fitted. destruct (attrs s !! name);
    intros H; inversion H; subst; apply HR.
Qed.

End Framed.

Lemma preserves_log_clf c : preserves same_self (log_clf c).
Proof. intros s r s' H. inversion H; subst. split; reflexivity. Qed.

Lemma same_self_refl s : same_self s s.
Proof. split; reflexivity. Qed.

Lemma same_self_trans s1 s2 s3 : same_self s1 s2 -> same_self s2 s3 -> same_self s1 s3.
Proof. intros [? ?] [? ?]. split; congruence. Qed.

(** One step of a computation that leaves the object alone: it raised,
    or the rest runs from a state with the same object. *)
Lemma bind_same_self {A B} (c : M A) (k : A -> M B) s0 s r s' :
  same_self s0 s -> preserves same_self c -> bind c k s = (r, s') ->
  (same_self s0 s' /\ exists e, r = Raise e) \/
  (exists a s1, same_self s0 s1 /\ k a s1 = (r, s')).
Proof.
  intros S Hc H. apply bind_inv in H as [(a & s1 & H1 & H) | (e & H1 & ->)].
  - right. exists a, s1. split; [ | exact H]. eapply same_self_trans; [exact S | eauto].
  - left. split; [ | eauto]. eapply same_self_trans; [exact S | eauto].
Qed.

End MonadFacts.

(** Preservation goals are closed by walking the computation. *)
Ltac preserved HR :=
  repeat first
    [ apply (preserves_bind _ HR); [ | intros ? ]
    | apply (preserves_ret _ HR)
    | apply (preserves_raise _ HR)
    | apply (preserves_lift _ HR)
    | apply (preserves_getattr _ HR)
    | apply (preserves_ext _ HR)
    | apply (preserves_check_is_fitted _ HR)
    | apply preserves_log_clf
    | match goal with
      | |- preserves _ (match ?v with _ => _ end) => destruct v
      | |- preserves _ (if ?b then _ else _) => destruct b
      end ].

(** ** The constructor *)

Section ConstructorFacts.
Context `{C : Collaborators}.

Lemma setattr_inv name v s r s' :
  setattr name v s = (r, s') ->
  r = Ok tt /\ attrs s' = <[name := v]> (attrs s) /\ world s' = world s /\
  clf_log s' = clf_log s /\ fit_log s' = fit_log s.
Proof. intros H. inversion H; subst. simpl. auto. Qed.

Lemma ext_result {A} (f : World -> (string + A) * World) s r s' :
  ext f s = (r, s') ->
  attrs s' = attrs s /\ ((exists a, r = Ok a) \/ (exists what, r = Raise (External what))).
Proof.
  intros H. apply ext_inv in H as (Ha & _ & _ & _ & ->). split; [assumption | ].
  destruct (fst (f (world s))); eauto.
Qed.

(** Past the two checks the constructor raises nothing of its own: it
    returns, or a collaborator's constructor raised. *)
Lemma init_within_caps max_iters ds n_samples n_features rs esr tol nec s r s' :
  n_samples <= MAX_INP_SIZE -> n_features <= MAX_FEAT_SIZE ->
  __init__ max_iters ds n_samples n_features rs esr tol nec s = (r, s') ->
  (exists what, r = Raise (External what)) \/
  (r = Ok tt /\
   attrs s' !! "n_samples" = Some (PyInt n_samples) /\
   attrs s' !! "n_features" = Some (PyInt n_features)).
Proof.
  intros Hs Hf. unfold __init__.
  destruct (Z.leb_spec n_samples MAX_INP_SIZE) as [_ | ?]; [ | lia ].
  destruct (Z.leb_spec n_features MAX_FEAT_SIZE) as [_ | ?]; [ | lia ].
  cbn [negb]. intros H.
  repeat match type of H with
  | bind (setattr _ _) _ _ = _ =>
      let a := fresh "a" in let s1 := fresh "s" in let H1 := fresh "H" in
      apply bind_inv in H as [(a & s1 & H1 & H) | (? & H1 & _)];
      apply setattr_inv in H1 as (? & ? & _); [ | discriminate ]
  | bind (ext _) _ _ = _ =>
      let a := fresh "a" in let s1 := fresh "s" in let H1 := fresh "H" in
      apply bind_inv in H as [(a & s1 & H1 & H) | (? & H1 & ->)];
      apply ext_result in H1 as (? & [(? & ?) | (? & ?)]);
      try congruence;
      try match goal with
          | Hx : _ = Raise (External ?w) |- _ => left; exists w; congruence
          end
  end.
  apply setattr_inv in H as (-> & Ha & _). right. split; [reflexivity | ].
  repeat match goal with
  | Hx : attrs ?x = _ |- _ => rewrite Hx in *; clear Hx
  end.
  split; simplify_map_eq; reflexivity.
Qed.

End ConstructorFacts.

(** ** The fit loop *)

Section FitFacts.
Context `{C : Collaborators}.

Lemma preserves_call {A} R (sg : pysig) npos kws (body : M A) :
  framing R -> preserves R body -> preserves R (call sg npos kws body).
Proof. intros HR Hb. unfold call. preserved HR. exact Hb. Qed.

Lemma preserves_data_subsample R X y :
  framing R -> preserves R (_data_subsample X y).
Proof. intros HR. unfold _data_subsample, as_sampler. preserved HR. Qed.

Lemma preserves_feat_subsample R X y transform :
  framing R -> preserves R (_feat_subsample X y transform).
Proof. intros HR. unfold _feat_subsample, as_fsampler. preserved HR. Qed.

Lemma as_float_inv v s r s' :
  as_float v s = (r, s') -> s' = s /\ forall f, v = PyFloat f -> r = Ok f.
Proof.
  destruct v; cbn [as_float]; try destruct (is_infinity (float_of_Z z));
    intros H; inversion H; subst; (split; [reflexivity | ]);
    intros f0 E; inversion E; subst; reflexivity.
Qed.

(** The inner loop leaves the object alone, and when it returns it has
    scored every pair once, in order. *)
Lemma eval_groups_spec pairs : forall _y y_val vars acc s r s',
  eval_groups pairs _y y_val vars acc s = (r, s') ->
  same_self s s' /\
  forall v acc', r = Ok (v, acc') ->
    exists losses,
      acc' = acc ++ losses /\ length losses = length pairs /\
      forall tol, attrs s !! "tolerance" = Some (PyFloat tol) ->
        v = after_scores tol vars losses.
Proof.
  induction pairs as [| [train_new test_new] rest IH]; intros _y y_val vars acc s r s' H.
  - inversion H; subst. split; [apply same_self_refl | ].
    intros v acc' Hr. inversion Hr; subst. exists []. rewrite app_nil_r. auto.
  - cbn [eval_groups] in H. pose proof (same_self_refl s) as S.
    eapply bind_same_self in H as [[D [e ->]] | (m & s1 & S1 & H)];
      [split; [exact D | discriminate] | | exact S
      | unfold as_clf; preserved framing_same_self].
    eapply bind_same_self in H as [[D [e ->]] | (u2 & s2 & S2 & H)];
      [split; [exact D | discriminate] | | exact S1 | apply preserves_log_clf].
    eapply bind_same_self in H as [[D [e ->]] | (u3 & s3 & S3 & H)];
      [split; [exact D | discriminate] | | exact S2
      | apply preserves_ext, framing_same_self].
    eapply bind_same_self in H as [[D [e ->]] | (m' & s4 & S4 & H)];
      [split; [exact D | discriminate] | | exact S3
      | unfold as_clf; preserved framing_same_self].
    eapply bind_same_self in H as [[D [e ->]] | (u5 & s5 & S5 & H)];
      [split; [exact D | discriminate] | | exact S4 | apply preserves_log_clf].
    eapply bind_same_self in H as [[D [e ->]] | (y_hat & s6 & S6 & H)];
      [split; [exact D | discriminate] | | exact S5
      | apply preserves_ext, framing_same_self].
    eapply bind_same_self in H as [[D [e ->]] | (loss & s7 & S7 & H)];
      [split; [exact D | discriminate] | | exact S6
      | unfold evaluate; apply preserves_ext, framing_same_self].
    clear S S1 S2 S3 S4 S5 S6.
    apply bind_inv in H as [(tolerance & s8 & H8 & H) | (e & H8 & ->)].
    2:{ split; [ | discriminate]. eapply same_self_trans; [exact S7 | ].
        revert H8. unfold as_float. preserved framing_same_self. }
    apply bind_inv in H8 as [(v8 & s8' & H8a & H8b) | (e & H8a & E)]; [ | discriminate E].
    apply getattr_inv in H8a as [-> [(v8' & Hv8 & E) | (_ & ? & E)]]; [ | discriminate E].
    inversion E; subst v8'; clear E.
    apply as_float_inv in H8b as [-> Hfloat].
    apply IH in H as [S9 Hrest].
    split; [eapply same_self_trans; eassumption | ].
    intros v acc' Hr. destruct (Hrest v acc' Hr) as (losses & -> & Hlen & Hv).
    exists (loss :: losses). split; [rewrite <- app_assoc; reflexivity | ].
    split; [simpl; congruence | ].
    intros tol Htol. destruct S7 as [Ha _]. rewrite Ha in Hv8. rewrite Htol in Hv8.
    inversion Hv8; subst v8. specialize (Hfloat tol eq_refl).
    inversion Hfloat; subst tolerance. cbn [after_scores fold_left]. apply Hv.
    rewrite Ha. exact Htol.
Qed.

Lemma retained_nil s s' : same_self s s' -> retained [] s s'.
Proof.
  intros [Ha Hl]. unfold retained, members. rewrite Ha, Hl, app_nil_r.
  repeat split; auto. intros l ->. simpl. rewrite app_nil_r. reflexivity.
Qed.

Lemma retained_trans T1 T2 s1 s2 s3 :
  retained T1 s1 s2 -> retained T2 s2 s3 -> retained (T1 ++ T2) s1 s3.
Proof.
  intros (L1 & K1 & E1 & M1) (L2 & K2 & E2 & M2). unfold retained.
  split; [rewrite L2, L1, app_assoc; reflexivity | ].
  split; [intros k Hk; rewrite K2, K1 by assumption; reflexivity | ].
  split.
  - intros HT. apply app_eq_nil in HT as [-> ->]. rewrite E2, E1; reflexivity.
  - intros l Hl. rewrite map_app, app_assoc. apply M2, M1, Hl.
Qed.

Lemma retained_attr T s s' k v :
  retained T s s' -> k <> "ensembles_" -> attrs s !! k = Some v -> attrs s' !! k = Some v.
Proof. intros (_ & K & _) Hk <-. apply K, Hk. Qed.

Lemma retained_configured T s s' n patience tol :
  retained T s s' -> configured s n patience tol -> configured s' n patience tol.
Proof.
  intros HR (H1 & H2 & H3). repeat split; eapply retained_attr; eauto; discriminate.
Qed.

(** [append] either raises and changes nothing, or extends the list. *)
Lemma append_ensemble_inv e s r s' :
  append_ensemble e s = (r, s') ->
  (s' = s /\ exists x, r = Raise x) \/
  (exists l, members s = Some l /\ r = Ok tt /\
     s' = mkState (<["ensembles_" := PyList (l ++ [e])]> (attrs s))
            (world s) (clf_log s) (fit_log s)).
Proof.
  unfold append_ensemble. intros H.
  apply bind_inv in H as [(l & s1 & H1 & H) | (x & H1 & ->)].
  - apply bind_inv in H1 as [(v & s0 & H0 & H1) | (x & H0 & E)]; [ | discriminate E ].
    apply getattr_inv in H0 as [-> [(v' & Hv & E) | (_ & ? & E)]]; [ | discriminate E ].
    inversion E; subst v'; clear E.
    destruct v; try discriminate H1. inversion H1; subst; clear H1.
    right. exists l. unfold members. rewrite Hv.
    inversion H; subst. auto.
  - left. apply bind_inv in H1 as [(v & s0 & H0 & H1) | (x' & H0 & E)].
    + apply getattr_inv in H0 as [-> _].
      destruct v; inversion H1; subst; eauto.
    + apply getattr_inv in H0 as [-> _]. eauto.
Qed.

Lemma retained_append e it s l :
  members s = Some l -> it_member it = e ->
  retained [it] s
    (mkState (<["ensembles_" := PyList (l ++ [e])]> (attrs s))
       (world s) (clf_log s) (fit_log s ++ [it])).
Proof.
  intros Hl He. unfold retained, members. cbn [attrs fit_log].
  split; [reflexivity | ]. split; [intros k Hk; apply lookup_insert_ne; congruence | ].
  split; [discriminate | ].
  intros l' Hl'. unfold members in Hl. rewrite Hl in Hl'. inversion Hl'; subst.
  rewrite lookup_insert_eq. reflexivity.
Qed.

End FitFacts.

Section LoopFacts.
Context `{C : Collaborators}.
Variable sg : pysig.

Lemma preserves_eval_groups pairs _y y_val vars acc :
  preserves same_self (eval_groups pairs _y y_val vars acc).
Proof. intros s r s' H. apply eval_groups_spec in H as [H _]. exact H. Qed.

(** One pass through the loop body: it raised before retaining anything,
    or it retained exactly one member, whatever the scores were. *)
Lemma epoch_body_spec X_train X_val y_train y_val vars s r s' :
  epoch_body sg X_train X_val y_train y_val vars s = (r, s') ->
  (same_self s s' /\ exists e, r = Raise e) \/
  (exists it, retained [it] s s' /\
     forall v b, r = Ok (v, b) ->
       forall patience tol,
         attrs s !! "early_stopping_rounds" = Some (PyInt patience) ->
         attrs s !! "tolerance" = Some (PyFloat tol) ->
         v = after_scores tol vars (it_scores it) /\ b = (snd v >=? patience)).
Proof.
  unfold epoch_body. intros H.
  pose proof (same_self_refl s) as S.
  eapply bind_same_self in H as [D | (rs & s1 & S1 & H)];
    [left; exact D | | exact S | apply preserves_getattr, framing_same_self].
  clear S.
  eapply bind_same_self in H as [D | ([[_x _y] indices] & s2 & S2 & H)];
    [left; exact D | | exact S1
    | apply preserves_call, preserves_data_subsample; apply framing_same_self].
  clear S1.
  eapply bind_same_self in H as [D | (trains & s3 & S3 & H)];
    [left; exact D | | exact S2
    | apply preserves_call, preserves_feat_subsample; apply framing_same_self].
  clear S2.
  eapply bind_same_self in H as [D | (tests & s4 & S4 & H)];
    [left; exact D | | exact S3
    | apply preserves_call, preserves_feat_subsample; apply framing_same_self].
  clear S3.
  apply bind_inv in H as [([v scores] & s5 & H5 & H) | (e & H5 & ->)].
  2:{ left. split; [ | eauto]. eapply same_self_trans; [exact S4 | ].
      revert H5. apply preserves_eval_groups. }
  apply eval_groups_spec in H5 as [S5 Hscores].
  destruct (Hscores v scores eq_refl) as (losses & E & _ & Hv). simpl in E. subst scores.
  assert (S05 : same_self s s5) by (eapply same_self_trans; eassumption).
  clear S5 Hscores.
  eapply bind_same_self in H as [D | (fs & s6 & S6 & H)];
    [left; exact D | | exact S05
    | unfold as_fsampler; preserved framing_same_self].
  eapply bind_same_self in H as [D | (samplers & s7 & S7 & H)];
    [left; exact D | | exact S6 | apply preserves_ext, framing_same_self].
  clear S6.
  apply bind_inv in H as [(u & s8 & H8 & H) | (e & H8 & ->)].
  2:{ left. split; [ | eauto]. apply append_ensemble_inv in H8 as [[-> _] | (l & _ & E & _)].
      - exact S7.
      - discriminate E. }
  apply append_ensemble_inv in H8 as [[_ [x E]] | (l & Hl & _ & ->)]; [discriminate E | ].
  apply bind_inv in H as [(u9 & s9 & H9 & H) | (e & H9 & ->)]; [ | inversion H9].
  inversion H9; subst s9; clear H9.
  right. exists (mkIteration losses indices samplers).
  assert (R : retained [mkIteration losses indices samplers] s7
                (mkState (<["ensembles_" := PyList (l ++ [mkEnsemble indices samplers])]> (attrs s7))
                   (world s7) (clf_log s7) (fit_log s7 ++ [mkIteration losses indices samplers])))
    by (apply retained_append; [exact Hl | reflexivity]).
  apply (retained_trans [] _ _ _ _ (retained_nil _ _ S7)) in R. simpl in R.
  set (s9 := mkState _ _ _ _) in *.
  assert (S9 : retained [mkIteration losses indices samplers] s s') .
  { replace [mkIteration losses indices samplers]
      with ([mkIteration losses indices samplers] ++ []) by apply app_nil_r.
    eapply retained_trans; [exact R | ]. apply retained_nil.
    revert H. unfold as_int. preserved framing_same_self. }
  split; [exact S9 | ].
  intros v' b Hr patience tol Hp Htol.
  apply bind_inv in H as [(esr & s10 & H10 & H) | (e & H10 & E)]; [ | congruence].
  rewrite Hr in H. clear Hr. inversion H; subst; clear H.
  apply bind_inv in H10 as [(w & s11 & H11 & H10) | (e & H11 & E)]; [ | discriminate E].
  apply getattr_inv in H11 as [-> [(w' & Hw & E) | (_ & ? & E)]]; [ | discriminate E].
  inversion E; subst w'; clear E.
  assert (Hw' : attrs s9 !! "early_stopping_rounds" = Some (PyInt patience))
    by (eapply retained_attr; [exact R | discriminate | exact Hp]).
  rewrite Hw' in Hw. inversion Hw; subst w. inversion H10; subst.
  split; [ | reflexivity]. apply Hv. destruct S4 as [Ha _].
  rewrite Ha. exact Htol.
Qed.

(** The loop: the iterations that completed each retained one member,
    and a run that returns stopped where [stops] says. *)
Lemma epochs_spec n : forall X_train X_val y_train y_val vars s r s',
  epochs sg n X_train X_val y_train y_val vars s = (r, s') ->
  exists T,
    retained T s s' /\
    (r = Ok tt ->
     forall patience tol,
       attrs s !! "early_stopping_rounds" = Some (PyInt patience) ->
       attrs s !! "tolerance" = Some (PyFloat tol) ->
       stops tol patience n vars T).
Proof.
  induction n as [| n IH]; intros X_train X_val y_train y_val vars s r s' H.
  - inversion H; subst. exists []. split; [apply retained_nil, same_self_refl | ].
    intros _ patience tol _ _. exact I.
  - cbn [epochs] in H.
    apply bind_inv in H as [([v b] & s1 & H1 & H) | (e & H1 & ->)].
    + apply epoch_body_spec in H1 as [[_ [e E]] | (it & R & Hvb)]; [discriminate E | ].
      cbn [fst snd] in H. destruct b.
      * inversion H; subst. exists [it]. split; [exact R | ].
        intros _ patience tol Hp Htol.
        destruct (Hvb v true eq_refl patience tol Hp Htol) as [-> Hb].
        cbn [stops]. rewrite <- Hb. reflexivity.
      * apply IH in H as (T & R' & HT). exists (it :: T).
        split; [apply (retained_trans [it] T _ _ _ R R') | ].
        intros Hr patience tol Hp Htol.
        destruct (Hvb v false eq_refl patience tol Hp Htol) as [-> Hb].
        cbn [stops]. rewrite <- Hb. apply HT; [exact Hr | | ].
        -- eapply retained_attr; [exact R | discriminate | exact Hp].
        -- eapply retained_attr; [exact R | discriminate | exact Htol].
    + apply epoch_body_spec in H1 as [[S _] | (it & R & _)].
      * exists []. split; [apply retained_nil, S | discriminate].
      * exists [it]. split; [exact R | discriminate].
Qed.

Lemma generate_ensembles_spec X y s r s' :
  _generate_ensembles sg X y s = (r, s') ->
  exists T,
    retained T s s' /\
    (r = Ok tt ->
     forall n patience tol,
       configured s n patience tol ->
       stops tol patience (Z.to_nat n) (infinity, 0) T).
Proof.
  unfold _generate_ensembles. intros H.
  pose proof (same_self_refl s) as S.
  eapply bind_same_self in H as [[D [e ->]] | (rs & s1 & S1 & H)];
    [exists []; split; [apply retained_nil, D | discriminate] | | exact S
    | unfold as_seed; preserved framing_same_self].
  eapply bind_same_self in H as [[D [e ->]] | ([[[X_train X_val] y_train] y_val] & s2 & S2 & H)];
    [exists []; split; [apply retained_nil, D | discriminate] | | exact S1
    | apply preserves_ext, framing_same_self].
  apply bind_inv in H as [(n & s3 & H3 & H) | (e & H3 & ->)].
  2:{ exists []. split; [ | discriminate]. apply retained_nil.
      eapply same_self_trans; [exact S2 | ]. revert H3.
      unfold py_range, as_int. preserved framing_same_self. }
  assert (S3 : same_self s s3).
  { eapply same_self_trans; [exact S2 | ]. revert H3.
    unfold py_range, as_int. preserved framing_same_self. }
  apply epochs_spec in H as (T & R & HT). exists T.
  split; [apply (retained_trans [] T _ _ _ (retained_nil _ _ S3) R) | ].
  intros Hr m patience tol (Hm & Hp & Htol).
  destruct S3 as [Ha3 _]. destruct S2 as [Ha2 _].
  assert (n = Z.to_nat m) as ->.
  { apply bind_inv in H3 as [(v & s0 & H0 & H3) | (e & H0 & E)]; [ | discriminate E].
    apply getattr_inv in H0 as [-> [(v' & Hv & E) | (_ & ? & E)]]; [ | discriminate E].
    inversion E; subst v'; clear E. rewrite Ha2, Hm in Hv. inversion Hv; subst v.
    inversion H3; reflexivity. }
  apply HT; [exact Hr | rewrite Ha3; exact Hp | rewrite Ha3; exact Htol].
Qed.

(** [fit]: rejected by the validation, or reset and then only this
    call's iterations retained. *)
Lemma fit_spec X y s r s' :
  fit sg X y s = (r, s') ->
  (exists what, check_X_y X y = inl what /\ r = Raise (External what) /\ untouched s s') \/
  (exists T,
     fit_log s' = fit_log s ++ T /\
     members s' = Some (map it_member T) /\
     (forall k, k <> "ensembles_" -> attrs s' !! k = attrs s !! k) /\
     (r = Ok tt ->
      forall n patience tol,
        configured s n patience tol ->
        stops tol patience (Z.to_nat n) (infinity, 0) T)).
Proof.
  unfold fit. intros H.
  apply bind_inv in H as [(c & s1 & H1 & H) | (e & H1 & ->)].
  2:{ left. apply ext_inv in H1 as (Ha & Hf & Hc & _ & E). cbn [fst] in E.
      destruct (check_X_y X y) as [what | c]; [ | discriminate E].
      inversion E. exists what. repeat split; assumption. }
  right. apply ext_inv in H1 as (Ha1 & Hf1 & _ & _ & _).
  apply bind_inv in H as [(u & s2 & H2 & H) | (e & H2 & ->)]; [ | inversion H2].
  inversion H2; subst s2; clear H2.
  unfold call in H. apply bind_inv in H as [(u3 & s3 & H3 & H) | (e & H3 & ->)];
    [ | inversion H3].
  inversion H3; subst s3; clear H3.
  apply generate_ensembles_spec in H as (T & (L & K & _ & Mm) & HT).
  exists T. cbn [attrs fit_log] in *.
  split; [rewrite L, Hf1; reflexivity | ].
  split.
  { apply (Mm []). unfold members. cbn [attrs]. rewrite lookup_insert_eq. reflexivity. }
  split.
  { intros k Hk. rewrite K by exact Hk. rewrite lookup_insert_ne by congruence.
    rewrite Ha1. reflexivity. }
  intros Hr n patience tol (Hm & Hp & Htol). apply (HT Hr n patience tol).
  repeat split; cbn [attrs]; rewrite lookup_insert_ne by discriminate; rewrite Ha1; assumption.
Qed.

End LoopFacts.

(** ** The class as the source defines it *)

Section SourceFacts.
Context `{C : Collaborators}.

Lemma bind_args_data_subsample_src :
  bind_args _data_subsample_def 2 ["random_state"] =
  Raise (TypeError
    "EnsembleTabPFN._data_subsample() got an unexpected keyword argument 'random_state'").
Proof. reflexivity. Qed.

Lemma bind_args_predict_src :
  bind_args _predict_def 1 [] =
  Raise (TypeError
    "EnsembleTabPFN._predict() missing 1 required positional argument: 'model'").
Proof. reflexivity. Qed.

(** The body of the fit loop never gets past its first call. *)
Lemma epoch_body_src X_train X_val y_train y_val vars s :
  exists e, epoch_body _data_subsample_def X_train X_val y_train y_val vars s = (Raise e, s).
Proof.
  unfold epoch_body, bind at 1, getattr.
  destruct (attrs s !! "random_state"); eauto.
Qed.

Lemma epochs_src n X_train X_val y_train y_val vars s r s' :
  epochs _data_subsample_def n X_train X_val y_train y_val vars s = (r, s') ->
  s' = s /\ (n = O -> r = Ok tt) /\ (n <> O -> exists e, r = Raise e).
Proof.
  destruct n as [| n]; cbn [epochs].
  - intros H. inversion H; subst. split; [reflexivity | ]. split; [reflexivity | congruence].
  - destruct (epoch_body_src X_train X_val y_train y_val vars s) as [e He].
    rewrite (bind_Raise _ _ _ _ _ He). intros H. inversion H; subst.
    split; [reflexivity | ]. split; [discriminate | eauto].
Qed.

Lemma generate_ensembles_src X y s r s' :
  _generate_ensembles _data_subsample_def X y s = (r, s') -> same_self s s'.
Proof.
  unfold _generate_ensembles. intros H.
  pose proof (same_self_refl s) as S.
  eapply bind_same_self in H as [[D _] | (rs & s1 & S1 & H)];
    [exact D | | exact S | unfold as_seed; preserved framing_same_self].
  eapply bind_same_self in H as [[D _] | ([[[X_train X_val] y_train] y_val] & s2 & S2 & H)];
    [exact D | | exact S1 | apply preserves_ext, framing_same_self].
  eapply bind_same_self in H as [[D _] | (n & s3 & S3 & H)];
    [exact D | | exact S2 | unfold py_range, as_int; preserved framing_same_self].
  apply epochs_src in H as [-> _]. exact S3.
Qed.

(** On the class as written, [fit] retains nothing: past the validation
    the list is reset and stays empty. *)
Lemma fit_src_members X y c s :
  check_X_y X y = inr c ->
  members (snd (fit _data_subsample_def X y s)) = Some [] /\
  fit_log (snd (fit _data_subsample_def X y s)) = fit_log s.
Proof.
  intros Hc. destruct (fit _data_subsample_def X y s) as [r s'] eqn:H. cbn [snd].
  unfold fit in H.
  apply bind_inv in H as [(c' & s1 & H1 & H) | (e & H1 & ->)].
  2:{ apply ext_inv in H1 as (_ & _ & _ & _ & E). cbn [fst] in E. rewrite Hc in E.
      discriminate E. }
  apply ext_inv in H1 as (Ha1 & Hf1 & _ & _ & _).
  apply bind_inv in H as [(u & s2 & H2 & H) | (e & H2 & ->)]; [ | inversion H2].
  inversion H2; subst s2; clear H2.
  unfold call in H. apply bind_inv in H as [(u3 & s3 & H3 & H) | (e & H3 & ->)];
    [ | inversion H3].
  inversion H3; subst s3; clear H3.
  apply generate_ensembles_src in H as [Ha Hf]. cbn [attrs fit_log] in *.
  unfold members. rewrite Ha, lookup_insert_eq. split; [reflexivity | congruence].
Qed.

End SourceFacts.

Section SourceFit.
Context `{C : Collaborators}.

(** On the class as written, a [fit] that gets as far as the loop with a
    budget of at least one pass raises the [TypeError] of the call at
    source lines 118-120; the list has been reset and nothing was asked of
    the classifier. *)
Lemma fit_src_raises X y c rs parts w n s :
  check_X_y X y = inr c ->
  attrs s !! "random_state" = Some (of_seed rs) ->
  train_test_split (fst c) (snd c) rs (world s) = (inr parts, w) ->
  attrs s !! "max_iters" = Some (PyInt n) ->
  1 <= n ->
  fit _data_subsample_def X y s =
  (Raise (TypeError
     "EnsembleTabPFN._data_subsample() got an unexpected keyword argument 'random_state'"),
   mkState (<["ensembles_" := PyList []]> (attrs s)) w (clf_log s) (fit_log s)).
Proof.
  intros Hc Hrs Hsplit Hn Hpos.
  unfold fit, bind at 1, ext. rewrite Hc.
  unfold bind at 1, setattr. cbn [attrs world clf_log fit_log].
  unfold call, bind at 1, lift.
  replace (bind_args _generate_ensembles_def 2 []) with (Ok tt) by reflexivity.
  unfold _generate_ensembles.
  unfold bind at 1, bind at 1, getattr. cbn [attrs].
  rewrite lookup_insert_ne by discriminate. rewrite Hrs.
  replace (as_seed (of_seed rs)) with (@ret C _ rs) by (destruct rs; reflexivity).
  unfold ret at 1.
  unfold bind at 1, ext. cbn [attrs world clf_log fit_log]. rewrite Hsplit.
  destruct parts as [[[X_train X_val] y_train] y_val].
  unfold bind at 1, bind at 1, getattr. cbn [attrs].
  rewrite lookup_insert_ne by discriminate. rewrite Hn.
  unfold py_range, as_int, bind at 1, ret at 1, ret at 1.
  destruct (Z.to_nat n) as [| k] eqn:Ek; [lia | ].
  cbn [epochs]. unfold bind at 1, epoch_body, bind at 1, getattr. cbn [attrs].
  rewrite lookup_insert_ne by discriminate. rewrite Hrs. reflexivity.
Qed.

End SourceFit.

(** ** The accumulator *)

Module AccumulatorFacts.
Import Accumulator.

Lemma same_shape_eq a b : same_shape a b = true <-> shape a = shape b.
Proof.
  unfold same_shape. destruct (shape a) as [r1 c1], (shape b) as [r2 c2]. cbn [fst snd].
  rewrite andb_true_iff, !Nat.eqb_eq. split; [intros [-> ->]; reflexivity | ].
  intros H. inversion H. auto.
Qed.

Lemma row_sum_add_rows r1 : forall r2,
  length r1 = length r2 ->
  (row_sum (add_rows r1 r2) == row_sum r1 + row_sum r2)%Q.
Proof.
  induction r1 as [| x r1 IH]; intros [| y r2] Hlen; try discriminate Hlen.
  - cbn. ring.
  - cbn [add_rows zip_with row_sum fold_right].
    change (fold_right Qplus 0%Q (zip_with Qplus r1 r2)) with (row_sum (add_rows r1 r2)).
    rewrite IH by (simpl in Hlen; lia).
    change (fold_right Qplus 0%Q r1) with (row_sum r1).
    change (fold_right Qplus 0%Q r2) with (row_sum r2). ring.
Qed.

Lemma length_add_rows r1 r2 :
  length r1 = length r2 -> length (add_rows r1 r2) = length r1.
Proof. intros H. unfold add_rows. rewrite length_zip_with. lia. Qed.

Lemma row_sum_scale c r : (row_sum (map (Qmult c) r) == c * row_sum r)%Q.
Proof.
  induction r as [| x r IH]; cbn [map row_sum fold_right].
  - ring.
  - change (fold_right Qplus 0%Q (map (Qmult c) r)) with (row_sum (map (Qmult c) r)).
    rewrite IH. change (fold_right Qplus 0%Q r) with (row_sum r). ring.
Qed.

Lemma add_arrays_sums c k acc : forall m,
  length acc = length m ->
  rows_sum_to c k acc -> rows_sum_to c 1 m ->
  rows_sum_to c (k + 1) (add_arrays acc m) /\ length (add_arrays acc m) = length acc.
Proof.
  unfold rows_sum_to.
  induction acc as [| r acc IH]; intros [| r' m] Hlen Hacc Hm; try discriminate Hlen.
  - split; [constructor | reflexivity].
  - inversion Hacc as [| ? ? [Hl Hs] Hacc']; subst.
    inversion Hm as [| ? ? [Hl' Hs'] Hm']; subst.
    destruct (IH m) as [IH1 IH2]; [simpl in Hlen; lia | assumption | assumption | ].
    cbn [add_arrays zip_with]. split.
    + constructor; [ | exact IH1]. split.
      * rewrite length_add_rows; congruence.
      * rewrite row_sum_add_rows by congruence. rewrite Hs, Hs'. reflexivity.
    + cbn [length]. f_equal. exact IH2.
Qed.

Lemma fold_add_arrays_sums c ps : forall k acc,
  rows_sum_to c k acc ->
  Forall (fun a => length (rows a) = length acc /\ rows_sum_to c 1 (rows a)) ps ->
  rows_sum_to c (k + inject_Z (Z.of_nat (length ps)))
    (fold_left add_arrays (map rows ps) acc) /\
  length (fold_left add_arrays (map rows ps) acc) = length acc.
Proof.
  induction ps as [| a ps IH]; intros k acc Hacc Hps.
  - cbn. split; [ | reflexivity]. unfold rows_sum_to in *.
    eapply Forall_impl; [exact Hacc | ]. intros r [Hl Hs]. split; [exact Hl | ].
    rewrite Hs. ring.
  - inversion Hps as [| ? ? [Hl Hs] Hps']; subst.
    destruct (add_arrays_sums c k acc (rows a)) as [H1 H2]; [congruence | assumption.. | ].
    cbn [map fold_left].
    destruct (IH (k + 1)%Q (add_arrays acc (rows a))) as [IH1 IH2].
    + exact H1.
    + eapply Forall_impl; [exact Hps' | ]. intros b [Hb1 Hb2]. split; [congruence | exact Hb2].
    + split; [ | congruence]. unfold rows_sum_to in *.
      eapply Forall_impl; [exact IH1 | ]. intros r [Hr1 Hr2]. split; [exact Hr1 | ].
      rewrite Hr2. cbn [length]. rewrite Nat2Z.inj_succ, <- Z.add_1_r, inject_Z_plus.
      change (inject_Z 1) with 1%Q. ring.
Qed.

Lemma entry_add_arrays m1 m2 i j :
  entry (add_arrays m1 m2) i j =
  match entry m1 i j, entry m2 i j with
  | Some x, Some y => Some (x + y)%Q
  | _, _ => None
  end.
Proof.
  unfold entry, add_arrays, add_rows. rewrite lookup_zip_with.
  destruct (m1 !! i) as [r1 |]; cbn; [ | reflexivity].
  destruct (m2 !! i) as [r2 |]; cbn.
  - rewrite lookup_zip_with. destruct (r1 !! j); cbn; [ | reflexivity].
    destruct (r2 !! j); reflexivity.
  - destruct (r1 !! j); reflexivity.
Qed.

Lemma entry_fold_add_arrays i j ps : forall acc x,
  entry (fold_left add_arrays (map rows ps) acc) i j = Some x ->
  exists x0, entry acc i j = Some x0 /\ (x == x0 + entry_total ps i j)%Q.
Proof.
  induction ps as [| a ps IH]; intros acc x H.
  - cbn in H. exists x. split; [exact H | ]. cbn. ring.
  - cbn [map fold_left] in H. apply IH in H as (x1 & H1 & Hx).
    rewrite entry_add_arrays in H1.
    destruct (entry acc i j) as [x0 |]; [ | discriminate H1].
    destruct (entry (rows a) i j) as [y |] eqn:Ey; [ | discriminate H1].
    inversion H1; subst x1. exists x0. split; [reflexivity | ].
    rewrite Hx. unfold entry_total. cbn [map fold_right]. rewrite Ey. change (default 0%Q (Some y)) with y. ring.
Qed.

Lemma entry_scale c m i j : entry (scale c m) i j = Qmult c <$> entry m i j.
Proof.
  unfold entry, scale. rewrite list_lookup_fmap.
  destruct (m !! i) as [r |]; cbn; [ | reflexivity]. apply list_lookup_fmap.
Qed.

Lemma find_mismatch_none p ps :
  List.find (fun q => negb (same_shape p q)) ps = None <->
  Forall (fun q => shape q = shape p) ps.
Proof.
  induction ps as [| q ps IH]; cbn [List.find].
  - split; [constructor | reflexivity].
  - destruct (same_shape p q) eqn:E; cbn [negb].
    + apply same_shape_eq in E. rewrite IH. split.
      * intros H. constructor; [congruence | exact H].
      * intros H. inversion H; assumption.
    + split; [discriminate | ]. intros H. inversion H as [| ? ? Hq _]; subst.
      symmetry in Hq. apply same_shape_eq in Hq. congruence.
Qed.

Lemma count_positive (l : list ndarray) : l <> [] -> (0 < count l)%Q.
Proof.
  intros H. unfold count. destruct l as [| a l]; [congruence | ].
  change 0%Q with (inject_Z 0). rewrite <- Zlt_Qlt. cbn [length]. lia.
Qed.

End AccumulatorFacts.

(** * The claims *)

Section Claims.
Context `{C : Collaborators}.

(** C6.  Constructing the estimator with [n_samples] above the cap of 1000
    raises a [ValueError] that names the cap and the value, and so does
    [n_features] above the cap of 100 (once [n_samples] has passed); the
    object is left untouched, nothing is stored and no collaborator is
    built.  Within both caps the constructor raises no [ValueError], and
    when it returns it has stored the two values as given. *)
Theorem init_enforces_caps max_iters ds n_samples n_features rs esr tol nec s :
  (1000 < n_samples ->
   __init__ max_iters ds n_samples n_features rs esr tol nec s =
   (Raise (ValueError (cap_message "n_samples" 1000 n_samples)), s)) /\
  (n_samples <= 1000 -> 100 < n_features ->
   __init__ max_iters ds n_samples n_features rs esr tol nec s =
   (Raise (ValueError (cap_message "n_features" 100 n_features)), s)) /\
  (n_samples <= 1000 -> n_features <= 100 ->
   (forall msg,
      fst (__init__ max_iters ds n_samples n_features rs esr tol nec s)
      <> Raise (ValueError msg)) /\
   (fst (__init__ max_iters ds n_samples n_features rs esr tol nec s) = Ok tt ->
    attrs (snd (__init__ max_iters ds n_samples n_features rs esr tol nec s)) !! "n_samples"
      = Some (PyInt n_samples) /\
    attrs (snd (__init__ max_iters ds n_samples n_features rs esr tol nec s)) !! "n_features"
      = Some (PyInt n_features))).
Proof.
  split; [ | split].
  - intros Hs. unfold __init__, MAX_INP_SIZE.
    destruct (Z.leb_spec n_samples 1000) as [? | _]; [lia | reflexivity].
  - intros Hs Hf. unfold __init__, MAX_INP_SIZE, MAX_FEAT_SIZE.
    destruct (Z.leb_spec n_samples 1000) as [_ | ?]; [ | lia].
    destruct (Z.leb_spec n_features 100) as [? | _]; [lia | reflexivity].
  - intros Hs Hf.
    destruct (__init__ max_iters ds n_samples n_features rs esr tol nec s) as [r s'] eqn:H.
    apply init_within_caps in H as [[what ->] | (-> & H1 & H2)]; try assumption; cbn [fst snd].
    + split; [intros msg; discriminate | discriminate].
    + split; [intros msg; discriminate | auto].
Qed.

(** C10.  The constructor validates the upper bounds only: it raises a
    [ValueError] exactly when [n_samples] is above 1000 or [n_features]
    is above 100, so zero and negative values pass. *)
Theorem init_checks_upper_bounds_only max_iters ds n_samples n_features rs esr tol nec s :
  (exists msg,
     fst (__init__ max_iters ds n_samples n_features rs esr tol nec s)
     = Raise (ValueError msg))
  <-> (1000 < n_samples \/ 100 < n_features).
Proof.
  split.
  - intros [msg Hmsg].
    destruct (Z.le_gt_cases n_samples 1000) as [Hs | Hs]; [ | left; lia].
    destruct (Z.le_gt_cases n_features 100) as [Hf | Hf]; [ | right; lia].
    exfalso.
    destruct (__init__ max_iters ds n_samples n_features rs esr tol nec s) as [r s'] eqn:H.
    apply init_within_caps in H as [[what ->] | (-> & _)]; try assumption;
      cbn [fst] in Hmsg; discriminate Hmsg.
  - intros H. unfold __init__, MAX_INP_SIZE, MAX_FEAT_SIZE.
    destruct (Z.leb_spec n_samples 1000) as [Hs | Hs]; cbn [negb]; [ | eauto].
    destruct (Z.leb_spec n_features 100) as [Hf | Hf]; cbn [negb]; [lia | eauto].
Qed.

(** C4.  What the code does: [predict] and [predict_proba] call
    [self._predict(X)] with one argument where two are required, so each
    raises a [TypeError] at that call, on any estimator, fitted or not;
    the state is unchanged, hence nothing was asked of any classifier. *)
Theorem predict_raises_TypeError X s :
  predict X s =
    (Raise (TypeError
       "EnsembleTabPFN._predict() missing 1 required positional argument: 'model'"), s) /\
  predict_proba X s =
    (Raise (TypeError
       "EnsembleTabPFN._predict() missing 1 required positional argument: 'model'"), s).
Proof. split; reflexivity. Qed.

(** C5.  What the code does: with [max_iters] an integer, [_predict]
    called with both arguments raises before its loop body runs once; the
    estimator is unchanged and nothing was asked of any classifier, so no
    member is visited and no probability array is collected. *)
Theorem predict_loop_visits_no_member X model s n r s' :
  attrs s !! "max_iters" = Some (PyInt n) ->
  _predict X model s = (r, s') ->
  (exists e, r = Raise e) /\
  attrs s' = attrs s /\ fit_log s' = fit_log s /\ clf_log s' = clf_log s.
Proof.
  intros Hn. unfold _predict. intros H.
  assert (U0 : untouched s s) by (repeat split).
  assert (Tr : forall a b c, untouched a b -> untouched b c -> untouched a c)
    by apply framing_untouched.
  apply bind_inv in H as [(k & s1 & H1 & H) | (e & H1 & ->)].
  2:{ split; [eauto | ]. revert H1. unfold as_int. preserved framing_untouched. }
  assert (U1 : untouched s s1) by (revert H1; unfold as_int; preserved framing_untouched).
  apply bind_inv in H as [(m & s2 & H2 & H) | (e & H2 & ->)].
  2:{ split; [eauto | ]. eapply Tr; [exact U1 | ]. revert H2.
      apply preserves_ext, framing_untouched. }
  assert (U2 : untouched s s2).
  { eapply Tr; [exact U1 | ]. revert H2. apply preserves_ext, framing_untouched. }
  apply bind_inv in H as [(u & s3 & H3 & H) | (e & H3 & ->)].
  2:{ split; [eauto | ]. eapply Tr; [exact U2 | ]. revert H3.
      apply preserves_check_is_fitted, framing_untouched. }
  assert (U3 : untouched s s3).
  { eapply Tr; [exact U2 | ]. revert H3. apply preserves_check_is_fitted, framing_untouched. }
  apply bind_inv in H as [(its & s4 & H4 & H) | (e & H4 & ->)].
  2:{ split; [eauto | ]. eapply Tr; [exact U3 | ]. revert H4.
      unfold py_iter. preserved framing_untouched. }
  exfalso.
  apply bind_inv in H4 as [(v & s0 & H0 & H4) | (e & H0 & E)]; [ | discriminate E].
  apply getattr_inv in H0 as [-> [(v' & Hv & E) | (_ & ? & E)]]; [ | discriminate E].
  inversion E; subst v'; clear E. destruct U3 as (Ha & _). rewrite Ha, Hn in Hv.
  inversion Hv; subst v. discriminate H4.
Qed.

(** C9, amended.  A call of [fit] whose input passes the validation
    behaves the same whatever list [ensembles_] held before, and
    afterwards the list holds the members of the iterations this call
    completed and no other. *)
Theorem fit_discards_earlier_members sg X y c l s :
  check_X_y X y = inr c ->
  fit sg X y (with_members l s) = fit sg X y s /\
  exists T,
    fit_log (snd (fit sg X y s)) = fit_log s ++ T /\
    members (snd (fit sg X y s)) = Some (map it_member T).
Proof.
  intros Hc. split.
  - unfold fit, bind, ext, setattr, with_members. cbn [world attrs clf_log fit_log].
    rewrite Hc. cbn [world attrs clf_log fit_log]. rewrite insert_insert_eq. reflexivity.
  - destruct (fit sg X y s) as [r s'] eqn:H. cbn [snd].
    apply fit_spec in H as [(what & Hw & _) | (T & HT & Hm & _)]; [congruence | eauto].
Qed.

(** X1.  On the class as written, a call of [fit] whose input passes the
    validation, whose split succeeds and whose budget is at least one
    pass raises a [TypeError] in the first pass, at the call of
    [_data_subsample] with the keyword [random_state]; the list of
    members has been reset and is empty, and nothing was asked of the
    classifier. *)
Theorem fit_raises_on_first_pass X y c rs parts w n s :
  check_X_y X y = inr c ->
  attrs s !! "random_state" = Some (of_seed rs) ->
  train_test_split (fst c) (snd c) rs (world s) = (inr parts, w) ->
  attrs s !! "max_iters" = Some (PyInt n) ->
  1 <= n ->
  fst (fit _data_subsample_def X y s) =
    Raise (TypeError
      "EnsembleTabPFN._data_subsample() got an unexpected keyword argument 'random_state'") /\
  members (snd (fit _data_subsample_def X y s)) = Some [] /\
  fit_log (snd (fit _data_subsample_def X y s)) = fit_log s /\
  clf_log (snd (fit _data_subsample_def X y s)) = clf_log s.
Proof.
  intros Hc Hrs Hsplit Hn Hpos.
  rewrite (fit_src_raises X y c rs parts w n s Hc Hrs Hsplit Hn Hpos).
  cbn [fst snd fit_log clf_log]. unfold members. cbn [attrs].
  rewrite lookup_insert_eq. auto.
Qed.

End Claims.

Module AccumulatorClaims.
Import Accumulator AccumulatorFacts.

(** C8.  On a non-empty collection of well-formed arrays that all have
    the same shape and whose rows each sum to 1, [aggregate] returns an
    array of that shape whose entries are the element-wise mean and whose
    rows each sum to 1; when two collected arrays differ in shape it fails
    with a shape mismatch naming two different shapes. *)
Theorem aggregate_mean_row_stochastic (raw : list ndarray) :
  (raw <> [] ->
   Forall well_shaped raw ->
   (forall a b, a ∈ raw -> b ∈ raw -> shape a = shape b) ->
   Forall row_stochastic raw ->
   exists m,
     aggregate raw = inr m /\
     (forall a, a ∈ raw -> shape m = shape a) /\
     well_shaped m /\
     (forall i j x,
        entry (rows m) i j = Some x -> (x == entry_total raw i j / count raw)%Q) /\
     row_stochastic m) /\
  (forall a b, a ∈ raw -> b ∈ raw -> shape a <> shape b ->
   exists e g, aggregate raw = inl (ShapeMismatch e g) /\ e <> g).
Proof.
  split.
  - intros Hne Hwf Hsh Hst. destruct raw as [| p ps]; [congruence | ].
    assert (Hall : Forall (fun q => shape q = shape p) ps).
    { apply Forall_forall. intros q Hq. apply Hsh; [right; exact Hq | left]. }
    cbn [aggregate]. rewrite (proj2 (find_mismatch_none p ps) Hall).
    eexists. split; [reflexivity | ].
    inversion Hwf as [| ? ? [Hp1 Hp2] Hwf']; subst.
    inversion Hst as [| ? ? Hps Hst']; subst.
    assert (Hacc : rows_sum_to (snd (shape p)) 1 (rows p)).
    { unfold rows_sum_to. apply Forall_forall. intros r Hr. split.
      - exact (proj1 (Forall_forall _ _) Hp2 r Hr).
      - exact (proj1 (Forall_forall _ _) Hps r Hr). }
    assert (Hrest : Forall (fun a => length (rows a) = length (rows p) /\
                                     rows_sum_to (snd (shape p)) 1 (rows a)) ps).
    { apply Forall_forall. intros a Ha.
      pose proof (proj1 (Forall_forall _ _) Hwf' a Ha) as [Ha1 Ha2].
      pose proof (proj1 (Forall_forall _ _) Hst' a Ha) as Ha3.
      pose proof (proj1 (Forall_forall _ _) Hall a Ha) as Ha4.
      split; [rewrite Ha1, Hp1, Ha4; reflexivity | ].
      unfold rows_sum_to. apply Forall_forall. intros r Hr. split.
      - rewrite <- Ha4. exact (proj1 (Forall_forall _ _) Ha2 r Hr).
      - exact (proj1 (Forall_forall _ _) Ha3 r Hr). }
    destruct (fold_add_arrays_sums (snd (shape p)) ps 1 (rows p) Hacc Hrest) as [Hsum Hlen].
    pose proof (count_positive (p :: ps) Hne) as Hpos.
    assert (Hcount : (1 + inject_Z (Z.of_nat (length ps)) == count (p :: ps))%Q).
    { unfold count. cbn [length]. rewrite Nat2Z.inj_succ, <- Z.add_1_r, inject_Z_plus.
      change (inject_Z 1) with 1%Q. ring. }
    cbn [shape rows]. split; [ | split; [ | split]].
    + intros a [-> | Ha]%elem_of_cons; [reflexivity | ].
      symmetry. exact (proj1 (Forall_forall _ _) Hall a Ha).
    + unfold well_shaped, scale. cbn [shape rows fst snd]. rewrite length_map. split.
      * congruence.
      * apply Forall_forall. intros r Hr.
        apply list_elem_of_In, in_map_iff in Hr as [r0 [<- Hr0]].
        apply list_elem_of_In in Hr0. rewrite length_map.
        exact (proj1 (proj1 (Forall_forall _ _) Hsum r0 Hr0)).
    + intros i j x Hx. rewrite entry_scale in Hx.
      destruct (entry (fold_left add_arrays (map rows ps) (rows p)) i j) as [x' |] eqn:Ex;
        [ | discriminate Hx].
      cbn in Hx. inversion Hx; subst x; clear Hx.
      apply entry_fold_add_arrays in Ex as (x0 & Ex0 & Hx').
      rewrite Hx'. unfold entry_total at 2. cbn [map fold_right]. rewrite Ex0.
      change (default 0%Q (Some x0)) with x0.
      change (fold_right Qplus 0%Q
                (map (fun a => default 0%Q (entry (rows a) i j)) ps))
        with (entry_total ps i j).
      unfold Qdiv. ring.
    + unfold row_stochastic, scale. cbn [rows]. apply Forall_forall.
      intros r Hr. apply list_elem_of_In, in_map_iff in Hr as [r0 [<- Hr0]].
      apply list_elem_of_In in Hr0. rewrite row_sum_scale.
      rewrite (proj2 (proj1 (Forall_forall _ _) Hsum r0 Hr0)), Hcount.
      field. intros Hz. rewrite Hz in Hpos. apply (Qlt_irrefl 0), Hpos.
  - intros a b Ha Hb Hab. destruct raw as [| p ps]; [inversion Ha | ].
    cbn [aggregate].
    destruct (List.find (fun q => negb (same_shape p q)) ps) as [q |] eqn:Ef.
    + apply find_some in Ef as [_ Eq]. exists (shape p), (shape q).
      split; [reflexivity | ]. intros E.
      apply negb_true_iff in Eq. apply same_shape_eq in E. congruence.
    + exfalso. apply find_mismatch_none in Ef. apply Hab.
      assert (Hsame : forall x, x ∈ p :: ps -> shape x = shape p).
      { intros x [-> | Hx]%elem_of_cons; [reflexivity | ].
        exact (proj1 (Forall_forall _ _) Ef x Hx). }
      rewrite (Hsame a Ha), (Hsame b Hb). reflexivity.
Qed.

End AccumulatorClaims.

(** * The claims on concrete inputs *)

Lemma init_enforces_caps_witness :
  fst (@__init__ scripted 100 "bootstrap" 1500 100 None 5 0.125%float 4
         (@fresh scripted (mkScript [] 1 0)))
  = Raise (ValueError "n_samples must be less than or equal to 1000, got 1500") /\
  fst (@__init__ scripted 100 "bootstrap" 1000 101 None 5 0.125%float 4
         (@fresh scripted (mkScript [] 1 0)))
  = Raise (ValueError "n_features must be less than or equal to 100, got 101") /\
  attrs (snd (@__init__ scripted 100 "bootstrap" 0 (-1) None 5 0.125%float 4
                (@fresh scripted (mkScript [] 1 0)))) !! "n_samples"
  = Some (PyInt 0).
Proof.
  split; [ | split].
  - destruct (@init_enforces_caps scripted 100 "bootstrap" 1500 100 None 5 0.125%float 4
                (@fresh scripted (mkScript [] 1 0))) as (H & _ & _).
    rewrite H by lia. reflexivity.
  - destruct (@init_enforces_caps scripted 100 "bootstrap" 1000 101 None 5 0.125%float 4
                (@fresh scripted (mkScript [] 1 0))) as (_ & H & _).
    rewrite H by lia. reflexivity.
  - destruct (@init_enforces_caps scripted 100 "bootstrap" 0 (-1) None 5 0.125%float 4
                (@fresh scripted (mkScript [] 1 0))) as (_ & _ & H).
    destruct H as [_ H]; [lia | lia | ].
    apply H. vm_compute. reflexivity.
Defined.

Lemma predict_loop_visits_no_member_witness :
  (exists e, fst (@_predict scripted tt PyNone holding_members) = Raise e) /\
  attrs (snd (@_predict scripted tt PyNone holding_members)) = attrs holding_members /\
  fit_log (snd (@_predict scripted tt PyNone holding_members)) = fit_log holding_members /\
  clf_log (snd (@_predict scripted tt PyNone holding_members)) = clf_log holding_members.
Proof.
  apply (@predict_loop_visits_no_member scripted tt PyNone holding_members 10).
  - vm_compute. reflexivity.
  - apply surjective_pairing.
Defined.

Lemma fit_discards_earlier_members_witness :
  @fit scripted _data_subsample_def tt tt
    (with_members [mkEnsemble (5%nat : @Indices scripted) (9%nat : @FeatSamplers scripted)]
       seeded)
  = @fit scripted _data_subsample_def tt tt seeded /\
  exists T,
    fit_log (snd (@fit scripted _data_subsample_def tt tt seeded))
    = fit_log seeded ++ T /\
    members (snd (@fit scripted _data_subsample_def tt tt seeded))
    = Some (map it_member T).
Proof.
  apply (@fit_discards_earlier_members scripted _data_subsample_def tt tt (tt, tt)).
  reflexivity.
Defined.

Lemma fit_raises_on_first_pass_witness :
  fst (@fit scripted _data_subsample_def tt tt (flat_scores 1)) =
    Raise (TypeError
      "EnsembleTabPFN._data_subsample() got an unexpected keyword argument 'random_state'") /\
  members (snd (@fit scripted _data_subsample_def tt tt (flat_scores 1))) = Some [] /\
  fit_log (snd (@fit scripted _data_subsample_def tt tt (flat_scores 1)))
  = fit_log (flat_scores 1) /\
  clf_log (snd (@fit scripted _data_subsample_def tt tt (flat_scores 1)))
  = clf_log (flat_scores 1).
Proof.
  apply (@fit_raises_on_first_pass scripted tt tt (tt, tt) None (tt, tt, tt, tt)
           (world (flat_scores 1)) 10 (flat_scores 1)).
  - reflexivity.
  - vm_compute. reflexivity.
  - reflexivity.
  - vm_compute. reflexivity.
  - lia.
Defined.

Module AccumulatorWitness.
Import Accumulator AccumulatorExamples AccumulatorClaims.

Lemma aggregate_mean_row_stochastic_witness :
  (exists m, aggregate [half_half; sure] = inr m /\ row_stochastic m) /\
  (exists e g, aggregate [half_half; three_classes] = inl (ShapeMismatch e g) /\ e <> g).
Proof.
  split.
  - destruct (proj1 (aggregate_mean_row_stochastic [half_half; sure]))
      as (m & Hm & _ & _ & _ & Hs).
    + discriminate.
    + repeat constructor.
    + intros a b Ha Hb. rewrite !elem_of_cons, elem_of_nil in Ha, Hb.
      destruct Ha as [-> | [-> | []]], Hb as [-> | [-> | []]]; reflexivity.
    + repeat constructor.
    + exists m. split; assumption.
  - apply (proj2 (aggregate_mean_row_stochastic [half_half; three_classes])
             half_half three_classes).
    + rewrite elem_of_cons. auto.
    + rewrite !elem_of_cons. auto.
    + discriminate.
Defined.

End AccumulatorWitness.

(** * Further properties *)

(** ** What a run of the fit loop logs *)

Section RunFacts.
Context `{C : Collaborators}.
Variable sg : pysig.

Lemma untouched_refl s : untouched s s.
Proof. repeat split. Qed.

Lemma untouched_trans s1 s2 s3 : untouched s1 s2 -> untouched s2 s3 -> untouched s1 s3.
Proof. intros (? & ? & ?) (? & ? & ?). repeat split; congruence. Qed.

(** One step of a computation that touches neither the object nor the
    logs: it raised, or the rest runs from such a state. *)
Lemma bind_untouched {A B} (c : M A) (k : A -> M B) s0 s r s' :
  untouched s0 s -> preserves untouched c -> bind c k s = (r, s') ->
  (untouched s0 s' /\ exists e, r = Raise e) \/
  (exists a s1, untouched s0 s1 /\ k a s1 = (r, s')).
Proof.
  intros S Hc H. apply bind_inv in H as [(a & s1 & H1 & H) | (e & H1 & ->)].
  - right. exists a, s1. split; [ | exact H]. eapply untouched_trans; [exact S | eauto].
  - left. split; [ | eauto]. eapply untouched_trans; [exact S | eauto].
Qed.

Lemma log_clf_inv c s r s' :
  log_clf c s = (r, s') ->
  r = Ok tt /\ attrs s' = attrs s /\ fit_log s' = fit_log s /\
  clf_log s' = clf_log s ++ [c].
Proof. intros H. inversion H; subst. simpl. auto. Qed.

Lemma clf_pairs_app k1 k2 : clf_pairs (k1 + k2) = clf_pairs k1 ++ clf_pairs k2.
Proof.
  unfold clf_pairs. induction k1 as [| k1 IH]; [reflexivity | ].
  cbn [Nat.add replicate concat]. rewrite IH. reflexivity.
Qed.

Lemma total_scores_cons it T :
  total_scores (it :: T) = (length (it_scores it) + total_scores T)%nat.
Proof. unfold total_scores. cbn [map concat]. apply length_app. Qed.

Lemma called_untouched s s' : untouched s s' -> called 0 [] s s'.
Proof. intros (_ & _ & H). split; [rewrite H, app_nil_r; reflexivity | auto]. Qed.

Lemma called_after s s1 s2 k extra :
  untouched s s1 -> called k extra s1 s2 -> called k extra s s2.
Proof. intros (_ & _ & H) [H1 H2]. split; [rewrite H1, H; reflexivity | exact H2]. Qed.

Lemma called_then s1 s2 s3 k1 k2 extra :
  called k1 [] s1 s2 -> called k2 extra s2 s3 -> called (k1 + k2) extra s1 s3.
Proof.
  intros [H1 _] [H2 H3]. split; [ | exact H3].
  rewrite H2, H1, clf_pairs_app, app_nil_r, !app_assoc. reflexivity.
Qed.

Lemma eval_groups_calls pairs : forall _y y_val vars acc s r s',
  eval_groups pairs _y y_val vars acc s = (r, s') ->
  exists k extra,
    called k extra s s' /\ (k <= length pairs)%nat /\
    (forall v, r = Ok v -> k = length pairs /\ extra = []).
Proof.
  induction pairs as [| [train_new test_new] rest IH]; intros _y y_val vars acc s r s' H.
  - inversion H; subst. exists 0%nat, []. split; [apply called_untouched, untouched_refl | ].
    split; [reflexivity | auto].
  - cbn [eval_groups] in H. pose proof (untouched_refl s) as U.
    eapply bind_untouched in H as [[D [e ->]] | (m & s1 & U1 & H)];
      [exists 0%nat, []; split; [apply called_untouched, D | ];
       split; [apply Nat.le_0_l | discriminate]
      | | exact U | unfold as_clf; preserved framing_untouched].
    apply bind_inv in H as [(u2 & s2 & H2 & H) | (e & H2 & ->)]; [ | inversion H2].
    apply log_clf_inv in H2 as (_ & A2 & F2 & L2).
    assert (K1 : called 0 [CallFit] s s2).
    { destruct U1 as (_ & _ & L1). split; [rewrite L2, L1; reflexivity | auto]. }
    apply bind_inv in H as [(u3 & s3 & H3 & H) | (e & H3 & ->)].
    2:{ apply ext_inv in H3 as (_ & _ & L3 & _).
        exists 0%nat, [CallFit]. split; [ | split; [apply Nat.le_0_l | discriminate]].
        destruct K1 as [K1 _]. split; [rewrite L3; exact K1 | auto]. }
    apply ext_inv in H3 as (A3 & F3 & L3 & _).
    apply bind_inv in H as [(m' & s4 & H4 & H) | (e & H4 & ->)].
    2:{ assert (U4 : untouched s3 s') by
          (revert H4; unfold as_clf; preserved framing_untouched).
        destruct U4 as (_ & _ & L4).
        exists 0%nat, [CallFit]. split; [ | split; [apply Nat.le_0_l | discriminate]].
        destruct K1 as [K1 _]. split; [rewrite L4, L3; exact K1 | auto]. }
    assert (U4 : untouched s3 s4) by (revert H4; unfold as_clf; preserved framing_untouched).
    destruct U4 as (A4 & F4 & L4).
    apply bind_inv in H as [(u5 & s5 & H5 & H) | (e & H5 & ->)]; [ | inversion H5].
    apply log_clf_inv in H5 as (_ & A5 & F5 & L5).
    assert (K5 : called 1 [] s s5).
    { destruct K1 as [K1 _]. split; [ | auto].
      rewrite L5, L4, L3, K1. cbn. rewrite <- !app_assoc. reflexivity. }
    assert (Hstop' : forall x e, clf_log x = clf_log s5 ->
              exists k extra, called k extra s x /\
                (k <= length ((train_new, test_new) :: rest))%nat /\
                (forall v : float * Z * list float,
                   @Raise (float * Z * list float) e = Ok v ->
                   k = length ((train_new, test_new) :: rest) /\ extra = [])).
    { intros x e Hx. exists 1%nat, []. split.
      - destruct K5 as [K5 _]. split; [rewrite Hx; exact K5 | auto].
      - split; [cbn [length]; lia | discriminate]. }
    apply bind_inv in H as [(y_hat & s6 & H6 & H) | (e & H6 & ->)].
    2:{ apply ext_inv in H6 as (_ & _ & L6 & _). apply Hstop'. exact L6. }
    apply ext_inv in H6 as (A6 & F6 & L6 & _).
    apply bind_inv in H as [(loss & s7 & H7 & H) | (e & H7 & ->)].
    2:{ apply ext_inv in H7 as (_ & _ & L7 & _). apply Hstop'. congruence. }
    apply ext_inv in H7 as (A7 & F7 & L7 & _).
    apply bind_inv in H as [(tolerance & s8 & H8 & H) | (e & H8 & ->)].
    2:{ assert (U8 : untouched s7 s') by
          (revert H8; unfold as_float; preserved framing_untouched).
        destruct U8 as (_ & _ & L8). apply Hstop'. congruence. }
    assert (U8 : untouched s7 s8) by
      (revert H8; unfold as_float; preserved framing_untouched).
    destruct U8 as (_ & _ & L8).
    apply IH in H as (k & extra & K & Hk & HOk).
    exists (1 + k)%nat, extra. split.
    + apply (called_then s s5 s' 1 k extra K5).
      destruct K as [K K']. split; [ | exact K']. rewrite K. congruence.
    + split; [cbn [length]; lia | ].
      intros v Hv. destruct (HOk v Hv) as [-> ->]. split; reflexivity.
Qed.

Lemma preserves_untouched_eval_prefix X y :
  preserves untouched (call sg 2 ["random_state"] (_data_subsample X y)).
Proof. apply preserves_call, preserves_data_subsample; apply framing_untouched. Qed.

(** One pass through the loop body: what it adds to the two logs. *)
Lemma epoch_body_run X_train X_val y_train y_val vars s r s' :
  epoch_body sg X_train X_val y_train y_val vars s = (r, s') ->
  exists T k extra,
    fit_log s' = fit_log s ++ T /\ called k extra s s' /\ (length T <= 1)%nat /\
    (forall v, r = Ok v -> extra = [] /\ exists it, T = [it] /\ k = length (it_scores it)).
Proof.
  unfold epoch_body. intros H.
  assert (Hquiet : forall x, untouched s x ->
            exists T k extra,
              fit_log x = fit_log s ++ T /\ called k extra s x /\ (length T <= 1)%nat).
  { intros x U. exists [], 0%nat, []. split; [ | split; [apply called_untouched, U | ]].
    - destruct U as (_ & F & _). rewrite F, app_nil_r. reflexivity.
    - cbn [length]. lia. }
  pose proof (untouched_refl s) as U.
  eapply bind_untouched in H as [[D [e ->]] | (rs & s1 & U1 & H)];
    [destruct (Hquiet _ D) as (T & k & extra & ? & ? & ?); exists T, k, extra;
     split; [assumption | split; [assumption | split; [assumption | discriminate]]]
    | | exact U | apply preserves_getattr, framing_untouched].
  eapply bind_untouched in H as [[D [e ->]] | ([[_x _y] indices] & s2 & U2 & H)];
    [destruct (Hquiet _ D) as (T & k & extra & ? & ? & ?); exists T, k, extra;
     split; [assumption | split; [assumption | split; [assumption | discriminate]]]
    | | exact U1 | apply preserves_untouched_eval_prefix].
  eapply bind_untouched in H as [[D [e ->]] | (trains & s3 & U3 & H)];
    [destruct (Hquiet _ D) as (T & k & extra & ? & ? & ?); exists T, k, extra;
     split; [assumption | split; [assumption | split; [assumption | discriminate]]]
    | | exact U2
    | apply preserves_call, preserves_feat_subsample; apply framing_untouched].
  eapply bind_untouched in H as [[D [e ->]] | (tests & s4 & U4 & H)];
    [destruct (Hquiet _ D) as (T & k & extra & ? & ? & ?); exists T, k, extra;
     split; [assumption | split; [assumption | split; [assumption | discriminate]]]
    | | exact U3
    | apply preserves_call, preserves_feat_subsample; apply framing_untouched].
  clear U U1 U2 U3 Hquiet.
  apply bind_inv in H as [([v scores] & s5 & H5 & H) | (e & H5 & ->)].
  2:{ pose proof H5 as H5'. apply eval_groups_spec in H5' as [[_ F5] _].
      apply eval_groups_calls in H5 as (k & extra & K & _ & _).
      exists [], k, extra. split; [ | split; [ | split]].
      - destruct U4 as (_ & F4 & _). rewrite F5, F4, app_nil_r. reflexivity.
      - apply (called_after s s4 s' k extra U4 K).
      - cbn [length]. lia.
      - discriminate. }
  pose proof H5 as H5'. apply eval_groups_spec in H5' as [[A5 F5] Hscores].
  destruct (Hscores v scores eq_refl) as (losses & E & Hlen & _). simpl in E. subst scores.
  apply eval_groups_calls in H5 as (k & extra & K & _ & HOk).
  destruct (HOk _ eq_refl) as [-> ->]. rewrite <- Hlen in K.
  assert (K5 : called (length losses) [] s s5) by (apply (called_after s s4 s5 _ _ U4 K)).
  assert (F05 : fit_log s5 = fit_log s) by (destruct U4 as (_ & F4 & _); congruence).
  clear U4 K HOk Hscores A5 F5 Hlen.
  assert (Hquiet : forall x, untouched s5 x ->
            fit_log x = fit_log s ++ [] /\ called (length losses) [] s x).
  { intros x (_ & F & L). split; [rewrite F, F05, app_nil_r; reflexivity | ].
    destruct K5 as [K5 _]. split; [rewrite L; exact K5 | auto]. }
  pose proof (untouched_refl s5) as U.
  eapply bind_untouched in H as [[D [e ->]] | (fs & s6 & U6 & H)];
    [destruct (Hquiet _ D) as [? ?]; exists [], (length losses), [];
     split; [assumption | split; [assumption | split; [cbn [length]; lia | discriminate]]]
    | | exact U | unfold as_fsampler; preserved framing_untouched].
  eapply bind_untouched in H as [[D [e ->]] | (samplers & s7 & U7 & H)];
    [destruct (Hquiet _ D) as [? ?]; exists [], (length losses), [];
     split; [assumption | split; [assumption | split; [cbn [length]; lia | discriminate]]]
    | | exact U6 | apply preserves_ext, framing_untouched].
  clear U U6.
  apply bind_inv in H as [(u & s8 & H8 & H) | (e & H8 & ->)].
  2:{ apply append_ensemble_inv in H8 as [[-> _] | (l & _ & E & _)]; [ | discriminate E].
      destruct (Hquiet _ U7) as [? ?]. exists [], (length losses), [].
      split; [assumption | split; [assumption | split; [cbn [length]; lia | discriminate]]]. }
  apply append_ensemble_inv in H8 as [[_ [x E]] | (l & Hl & _ & ->)]; [discriminate E | ].
  apply bind_inv in H as [(u9 & s9 & H9 & H) | (e & H9 & ->)]; [ | inversion H9].
  inversion H9; subst s9; clear H9.
  set (s9 := mkState _ _ _ _) in *.
  assert (F9 : fit_log s9 = fit_log s ++ [mkIteration losses indices samplers]).
  { subst s9. cbn [fit_log]. destruct U7 as (_ & F7 & _). rewrite F7, F05. reflexivity. }
  assert (K9 : called (length losses) [] s s9).
  { destruct K5 as [K5 _]. split; [ | auto]. subst s9. cbn [clf_log].
    destruct U7 as (_ & _ & L7). rewrite L7. exact K5. }
  assert (U10 : untouched s9 s') by (revert H; unfold as_int; preserved framing_untouched).
  destruct U10 as (_ & F10 & L10).
  exists [mkIteration losses indices samplers], (length losses), [].
  split; [congruence | ]. split; [ | split].
  - destruct K9 as [K9 _]. split; [rewrite L10; exact K9 | auto].
  - cbn [length]. lia.
  - intros _ _. split; [reflexivity | ]. eexists. split; reflexivity.
Qed.

(** The loop: at most [n] passes complete, and the classifier is asked
    for a [fit] and a [predict] per scored group, in that order. *)
Lemma epochs_run n : forall X_train X_val y_train y_val vars s r s',
  epochs sg n X_train X_val y_train y_val vars s = (r, s') ->
  exists T k extra,
    fit_log s' = fit_log s ++ T /\ called k extra s s' /\ (length T <= n)%nat /\
    (r = Ok tt -> extra = [] /\ k = total_scores T).
Proof.
  induction n as [| n IH]; intros X_train X_val y_train y_val vars s r s' H.
  - inversion H; subst. exists [], 0%nat, [].
    split; [rewrite app_nil_r; reflexivity | ].
    split; [apply called_untouched, untouched_refl | ]. split; [reflexivity | auto].
  - cbn [epochs] in H.
    apply bind_inv in H as [([v b] & s1 & H1 & H) | (e & H1 & ->)].
    + apply epoch_body_run in H1 as (T1 & k1 & extra1 & F1 & K1 & _ & HOk).
      destruct (HOk _ eq_refl) as (-> & it & -> & ->).
      cbn [fst snd] in H. destruct b.
      * inversion H; subst. exists [it], (length (it_scores it)), [].
        split; [exact F1 | ]. split; [exact K1 | ]. split; [cbn [length]; lia | ].
        intros _. split; [reflexivity | ].
        rewrite total_scores_cons. unfold total_scores. cbn. lia.
      * apply IH in H as (T & k & extra & F & K & Hlen & HT).
        exists (it :: T), (length (it_scores it) + k)%nat, extra.
        split; [rewrite F, F1, <- app_assoc; reflexivity | ].
        split; [apply (called_then s s1 s' _ _ _ K1 K) | ].
        split; [cbn [length]; lia | ].
        intros Hr. destruct (HT Hr) as [-> ->]. split; [reflexivity | ].
        rewrite total_scores_cons. reflexivity.
    + apply epoch_body_run in H1 as (T1 & k1 & extra1 & F1 & K1 & Hlen & _).
      exists T1, k1, extra1. split; [exact F1 | ]. split; [exact K1 | ].
      split; [lia | discriminate].
Qed.

Lemma generate_ensembles_run X y s r s' :
  _generate_ensembles sg X y s = (r, s') ->
  exists T k extra,
    fit_log s' = fit_log s ++ T /\ called k extra s s' /\
    (forall n, attrs s !! "max_iters" = Some (PyInt n) -> (length T <= Z.to_nat n)%nat) /\
    (r = Ok tt -> extra = [] /\ k = total_scores T).
Proof.
  unfold _generate_ensembles. intros H.
  assert (Hquiet : forall x, untouched s x ->
            exists T k extra,
              fit_log x = fit_log s ++ T /\ called k extra s x /\
              (forall n, attrs s !! "max_iters" = Some (PyInt n) ->
                         (length T <= Z.to_nat n)%nat)).
  { intros x U. exists [], 0%nat, []. split; [ | split; [apply called_untouched, U | ]].
    - destruct U as (_ & F & _). rewrite F, app_nil_r. reflexivity.
    - intros n _. cbn [length]. lia. }
  pose proof (untouched_refl s) as U.
  eapply bind_untouched in H as [[D [e ->]] | (rs & s1 & U1 & H)];
    [destruct (Hquiet _ D) as (T & k & extra & ? & ? & ?); exists T, k, extra;
     split; [assumption | split; [assumption | split; [assumption | discriminate]]]
    | | exact U | unfold as_seed; preserved framing_untouched].
  eapply bind_untouched in H
    as [[D [e ->]] | ([[[X_train X_val] y_train] y_val] & s2 & U2 & H)];
    [destruct (Hquiet _ D) as (T & k & extra & ? & ? & ?); exists T, k, extra;
     split; [assumption | split; [assumption | split; [assumption | discriminate]]]
    | | exact U1 | apply preserves_ext, framing_untouched].
  apply bind_inv in H as [(m & s3 & H3 & H) | (e & H3 & ->)].
  2:{ assert (U3 : untouched s s').
      { eapply untouched_trans; [exact U2 | ]. revert H3.
        unfold py_range, as_int. preserved framing_untouched. }
      destruct (Hquiet _ U3) as (T & k & extra & ? & ? & ?); exists T, k, extra.
      split; [assumption | split; [assumption | split; [assumption | discriminate]]]. }
  assert (U3 : untouched s s3).
  { eapply untouched_trans; [exact U2 | ]. revert H3.
    unfold py_range, as_int. preserved framing_untouched. }
  apply epochs_run in H as (T & k & extra & F & K & Hlen & HOk).
  exists T, k, extra.
  split; [destruct U3 as (_ & F3 & _); rewrite F, F3; reflexivity | ].
  split; [apply (called_after s s3 s' k extra U3 K) | ].
  split; [ | exact HOk].
  intros n Hn. destruct U2 as (A2 & _ & _).
  apply bind_inv in H3 as [(v & s0 & H0 & H3) | (e & H0 & E)]; [ | discriminate E].
  apply getattr_inv in H0 as [-> [(v' & Hv & E) | (_ & ? & E)]]; [ | discriminate E].
  inversion E; subst v'; clear E. rewrite A2, Hn in Hv. inversion Hv; subst v.
  inversion H3; subst. exact Hlen.
Qed.

Lemma fit_run X y s r s' :
  fit sg X y s = (r, s') ->
  exists T k extra,
    fit_log s' = fit_log s ++ T /\ called k extra s s' /\
    (forall n, attrs s !! "max_iters" = Some (PyInt n) -> (length T <= Z.to_nat n)%nat) /\
    (r = Ok tt -> extra = [] /\ k = total_scores T).
Proof.
  unfold fit. intros H.
  apply bind_inv in H as [(c & s1 & H1 & H) | (e & H1 & ->)].
  2:{ apply ext_inv in H1 as (_ & F1 & L1 & _). exists [], 0%nat, [].
      split; [rewrite F1, app_nil_r; reflexivity | ].
      split; [split; [rewrite L1, app_nil_r; reflexivity | auto] | ].
      split; [intros n _; cbn [length]; lia | discriminate]. }
  apply ext_inv in H1 as (A1 & F1 & L1 & _).
  apply bind_inv in H as [(u & s2 & H2 & H) | (e & H2 & ->)]; [ | inversion H2].
  inversion H2; subst s2; clear H2.
  unfold call in H. apply bind_inv in H as [(u3 & s3 & H3 & H) | (e & H3 & ->)];
    [ | inversion H3].
  inversion H3; subst s3; clear H3.
  apply generate_ensembles_run in H as (T & k & extra & F & [K K'] & Hlen & HOk).
  cbn [attrs fit_log clf_log] in *.
  exists T, k, extra. split; [congruence | ].
  split; [split; [congruence | exact K'] | ]. split; [ | exact HOk].
  intros n Hn. apply Hlen. rewrite lookup_insert_ne by discriminate. rewrite A1. exact Hn.
Qed.

End RunFacts.

(** ** The constructor, the empty budget *)

Section MoreFacts.
Context `{C : Collaborators}.

(** A constructor call that returns passed both checks and stored nine
    attributes, one insertion each, in the order of the source. *)
Lemma init_stores max_iters ds n_samples n_features rs esr tol nec s s' :
  __init__ max_iters ds n_samples n_features rs esr tol nec s = (Ok tt, s') ->
  n_samples <= MAX_INP_SIZE /\ n_features <= MAX_FEAT_SIZE /\
  fit_log s' = fit_log s /\ clf_log s' = clf_log s /\
  exists h_ds h_fs h_m,
    attrs s' =
    <["model" := PyClf h_m]>
      (<["tolerance" := PyFloat tol]>
         (<["early_stopping_rounds" := PyInt esr]>
            (<["random_state" := of_seed rs]>
               (<["max_iters" := PyInt max_iters]>
                  (<["feature_sampler" := PyFSampler h_fs]>
                     (<["data_sampler" := PySampler h_ds]>
                        (<["n_features" := PyInt n_features]>
                           (<["n_samples" := PyInt n_samples]> (attrs s))))))))).
Proof.
  unfold __init__.
  destruct (Z.leb_spec n_samples MAX_INP_SIZE) as [Hs | ?]; [ | discriminate].
  destruct (Z.leb_spec n_features MAX_FEAT_SIZE) as [Hf | ?]; [ | discriminate].
  cbn [negb]. intros H. split; [exact Hs | ]. split; [exact Hf | ].
  repeat match type of H with
  | bind (setattr _ _) _ _ = _ =>
      let a := fresh "a" in let s1 := fresh "s" in let H1 := fresh "H" in
      apply bind_inv in H as [(a & s1 & H1 & H) | (? & H1 & ?)];
      [apply setattr_inv in H1 as (_ & ? & _ & ? & ?) | discriminate]
  | bind (ext _) _ _ = _ =>
      let a := fresh "a" in let s1 := fresh "s" in let H1 := fresh "H" in
      apply bind_inv in H as [(a & s1 & H1 & H) | (? & H1 & ?)];
      [apply ext_inv in H1 as (? & ? & ? & _) | discriminate]
  end.
  apply setattr_inv in H as (_ & Ha & _ & Hc & Hf').
  split; [congruence | ]. split; [congruence | ].
  eexists _, _, _. rewrite Ha.
  repeat match goal with
  | Hx : attrs ?x = _ |- context [attrs ?x] => rewrite Hx
  end.
  reflexivity.
Qed.

(** With nothing to iterate over, [fit] resets the list and returns. *)
Lemma fit_empty_budget sg X y c rs parts w n s :
  check_X_y X y = inr c ->
  attrs s !! "random_state" = Some (of_seed rs) ->
  train_test_split (fst c) (snd c) rs (world s) = (inr parts, w) ->
  attrs s !! "max_iters" = Some (PyInt n) ->
  n <= 0 ->
  fit sg X y s =
  (Ok tt, mkState (<["ensembles_" := PyList []]> (attrs s)) w (clf_log s) (fit_log s)).
Proof.
  intros Hc Hrs Hsplit Hn Hneg.
  unfold fit, bind at 1, ext. rewrite Hc.
  unfold bind at 1, setattr. cbn [attrs world clf_log fit_log].
  unfold call, bind at 1, lift.
  replace (bind_args _generate_ensembles_def 2 []) with (Ok tt) by reflexivity.
  unfold _generate_ensembles.
  unfold bind at 1, bind at 1, getattr. cbn [attrs].
  rewrite lookup_insert_ne by discriminate. rewrite Hrs.
  replace (as_seed (of_seed rs)) with (@ret C _ rs) by (destruct rs; reflexivity).
  unfold ret at 1.
  unfold bind at 1, ext. cbn [attrs world clf_log fit_log]. rewrite Hsplit.
  destruct parts as [[[X_train X_val] y_train] y_val].
  unfold bind at 1, bind at 1, getattr. cbn [attrs].
  rewrite lookup_insert_ne by discriminate. rewrite Hn.
  unfold py_range, as_int, bind at 1, ret at 1, ret at 1.
  destruct (Z.to_nat n) as [| k] eqn:Ek; [reflexivity | lia].
Qed.

Lemma clf_pairs_calls k x : x ∈ clf_pairs k -> x = CallFit \/ x = CallPredict.
Proof.
  unfold clf_pairs. induction k as [| k IH]; cbn [replicate concat].
  - intros H. inversion H.
  - cbn [app]. rewrite !elem_of_cons. intros [-> | [-> | H]]; auto.
Qed.

End MoreFacts.

(** ** The further properties *)

Section Extras.
Context `{C : Collaborators}.

(** X2.  Whatever [fit] returns or raises, the iterations it completed
    are at most [max_iters], and so are the members it leaves once the
    input has passed the validation. *)
Theorem fit_within_budget sg X y s r s' n :
  attrs s !! "max_iters" = Some (PyInt n) ->
  fit sg X y s = (r, s') ->
  exists T,
    fit_log s' = fit_log s ++ T /\ (length T <= Z.to_nat n)%nat /\
    (forall c, check_X_y X y = inr c ->
       exists l, members s' = Some l /\ (length l <= Z.to_nat n)%nat).
Proof.
  intros Hn H. pose proof H as H'.
  apply fit_run in H as (T & _ & _ & HT & _ & Hlen & _).
  exists T. split; [exact HT | ]. split; [exact (Hlen n Hn) | ].
  intros c Hc. apply fit_spec in H' as [(what & Hw & _) | (T' & HT' & Hm & _)]; [congruence | ].
  rewrite HT in HT'. apply app_inv_head in HT'. subst T'.
  exists (map it_member T). split; [exact Hm | ]. rewrite length_map. exact (Hlen n Hn).
Qed.

(** X3.  [fit] changes no attribute of the estimator other than
    [ensembles_], whether it returns or raises. *)
Theorem fit_keeps_configuration sg X y s r s' :
  fit sg X y s = (r, s') ->
  forall name, name <> "ensembles_" -> attrs s' !! name = attrs s !! name.
Proof.
  intros H name Hname.
  apply fit_spec in H as [(what & _ & _ & (Ha & _)) | (T & _ & _ & K & _)].
  - rewrite Ha. reflexivity.
  - apply K, Hname.
Qed.

(** X4.  The validation is a gate.  A call of [fit] whose input
    [check_X_y] rejects raises that rejection and leaves the estimator and
    both logs as they were.  A call whose input passes leaves an estimator
    that [check_is_fitted] accepts, also when the call itself raised. *)
Theorem fit_validation_gate sg X y s r s' :
  fit sg X y s = (r, s') ->
  (forall what, check_X_y X y = inl what ->
     r = Raise (External what) /\
     attrs s' = attrs s /\ fit_log s' = fit_log s /\ clf_log s' = clf_log s) /\
  (forall c, check_X_y X y = inr c ->
     check_is_fitted "ensembles_" s' = (Ok tt, s')).
Proof.
  intros H. split.
  - intros what Hw. unfold fit, bind, ext in H. rewrite Hw in H.
    inversion H; subst. cbn [attrs fit_log clf_log]. auto.
  - intros c Hc. apply fit_spec in H as [(what & Hw & _) | (T & _ & Hm & _)]; [congruence | ].
    unfold check_is_fitted. unfold members in Hm.
    destruct (attrs s' !! "ensembles_"); [reflexivity | discriminate Hm].
Qed.

(** X5.  During [fit] the classifier is asked for nothing but [fit] and
    [predict], strictly in turn, starting with [fit]; a run that raised
    may end on a lone [fit].  When [fit] returns, the pairs of calls are
    as many as the feature groups scored over the completed iterations. *)
Theorem fit_asks_fit_then_predict sg X y s r s' :
  fit sg X y s = (r, s') ->
  exists k extra,
    clf_log s' = clf_log s ++ clf_pairs k ++ extra /\
    (extra = [] \/ extra = [CallFit]) /\
    (CallPredictProba ∉ (clf_pairs k ++ extra)) /\
    (r = Ok tt ->
     extra = [] /\ forall T, fit_log s' = fit_log s ++ T -> k = total_scores T).
Proof.
  intros H. apply fit_run in H as (T & k & extra & HT & [K K'] & _ & HOk).
  exists k, extra. split; [exact K | ]. split; [exact K' | ]. split.
  - rewrite elem_of_app. intros [Hin | Hin].
    + apply clf_pairs_calls in Hin as [E | E]; discriminate E.
    + destruct K' as [-> | ->]; [inversion Hin | ].
      rewrite elem_of_cons, elem_of_nil in Hin. destruct Hin as [E | []]. discriminate E.
  - intros Hr. destruct (HOk Hr) as [-> ->]. split; [reflexivity | ].
    intros T' HT'. rewrite HT in HT'. apply app_inv_head in HT'. subst T'. reflexivity.
Qed.

(** X8.  With [max_iters] zero or negative, a call of [fit] whose input
    passes the validation and whose split succeeds returns without a
    pass through the loop: the list of members is empty, no sampler and no
    classifier was asked anything, and only the split moved the
    collaborators. *)
Theorem fit_with_empty_budget sg X y c rs parts w n s :
  check_X_y X y = inr c ->
  attrs s !! "random_state" = Some (of_seed rs) ->
  train_test_split (fst c) (snd c) rs (world s) = (inr parts, w) ->
  attrs s !! "max_iters" = Some (PyInt n) ->
  n <= 0 ->
  fst (fit sg X y s) = Ok tt /\
  members (snd (fit sg X y s)) = Some [] /\
  world (snd (fit sg X y s)) = w /\
  fit_log (snd (fit sg X y s)) = fit_log s /\
  clf_log (snd (fit sg X y s)) = clf_log s.
Proof.
  intros Hc Hrs Hsplit Hn Hneg.
  rewrite (fit_empty_budget sg X y c rs parts w n s Hc Hrs Hsplit Hn Hneg).
  cbn [fst snd world fit_log clf_log]. unfold members. cbn [attrs].
  rewrite lookup_insert_eq. auto.
Qed.

(** X9.  A constructor call on a new object that returns has passed both
    caps and stored exactly nine attributes, the configuration values as
    they were given; [ensembles_] is not among them, so [check_is_fitted]
    rejects the new estimator. *)
Theorem init_stores_nine_attributes max_iters ds n_samples n_features rs esr tol nec w s' :
  __init__ max_iters ds n_samples n_features rs esr tol nec (fresh w) = (Ok tt, s') ->
  n_samples <= 1000 /\ n_features <= 100 /\
  dom (attrs s') = init_names /\
  attrs s' !! "n_samples" = Some (PyInt n_samples) /\
  attrs s' !! "n_features" = Some (PyInt n_features) /\
  attrs s' !! "random_state" = Some (of_seed rs) /\
  configured s' max_iters esr tol /\
  (exists msg, check_is_fitted "ensembles_" s' = (Raise (NotFittedError msg), s')).
Proof.
  intros H. apply init_stores in H as (Hs & Hf & _ & _ & h_ds & h_fs & h_m & Ha).
  cbn [fresh attrs] in Ha.
  split; [exact Hs | ]. split; [exact Hf | ].
  split; [rewrite Ha, !dom_insert_L, dom_empty_L; unfold init_names; set_solver | ].
  split; [rewrite Ha; simplify_map_eq; reflexivity | ].
  split; [rewrite Ha; simplify_map_eq; reflexivity | ].
  split; [rewrite Ha; simplify_map_eq; reflexivity | ].
  split; [repeat split; rewrite Ha; simplify_map_eq; reflexivity | ].
  unfold check_is_fitted. rewrite Ha. simplify_map_eq. eauto.
Qed.

(** X10.  On an estimator the constructor built, before or after a call
    of [fit], [_predict] called with both arguments raises an
    [AttributeError]: its first statement reads
    [self.n_ensemble_configurations], which neither the constructor nor
    [fit] ever stores.  This happens before [check_is_fitted] and before
    any classifier is built; the state is unchanged. *)
Theorem predict_reads_unset_attribute
    max_iters ds n_samples n_features rs esr tol nec w s1 sg X y r s2 X' model :
  __init__ max_iters ds n_samples n_features rs esr tol nec (fresh w) = (Ok tt, s1) ->
  fit sg X y s1 = (r, s2) ->
  _predict X' model s1 =
    (Raise (AttributeError
       "'EnsembleTabPFN' object has no attribute 'n_ensemble_configurations'"), s1) /\
  _predict X' model s2 =
    (Raise (AttributeError
       "'EnsembleTabPFN' object has no attribute 'n_ensemble_configurations'"), s2).
Proof.
  intros Hinit Hfit.
  apply init_stores in Hinit as (_ & _ & _ & _ & h_ds & h_fs & h_m & Ha).
  cbn [fresh attrs] in Ha.
  assert (H1 : attrs s1 !! "n_ensemble_configurations" = None)
    by (rewrite Ha; simplify_map_eq; reflexivity).
  assert (H2 : attrs s2 !! "n_ensemble_configurations" = None).
  { apply fit_spec in Hfit as [(what & _ & _ & (Hu & _)) | (T & _ & _ & K & _)].
    - rewrite Hu. exact H1.
    - rewrite K by discriminate. exact H1. }
  split; unfold _predict, bind, getattr; [rewrite H1 | rewrite H2]; reflexivity.
Qed.

End Extras.

(** ** The further properties on concrete inputs *)

Lemma fit_within_budget_witness :
  exists T,
    fit_log (snd (@fit scripted _data_subsample_with_seed tt tt (flat_scores 2)))
    = fit_log (flat_scores 2) ++ T /\
    (length T <= Z.to_nat 10)%nat /\
    (forall c, @check_X_y scripted tt tt = inr c ->
       exists l,
         members (snd (@fit scripted _data_subsample_with_seed tt tt (flat_scores 2))) = Some l /\
         (length l <= Z.to_nat 10)%nat).
Proof.
  apply (@fit_within_budget scripted _data_subsample_with_seed tt tt (flat_scores 2)
           (fst (@fit scripted _data_subsample_with_seed tt tt (flat_scores 2)))).
  - vm_compute. reflexivity.
  - apply surjective_pairing.
Defined.

Lemma fit_keeps_configuration_witness :
  attrs (snd (@fit scripted _data_subsample_with_seed tt tt (flat_scores 2))) !! "tolerance"
  = attrs (flat_scores 2) !! "tolerance".
Proof.
  apply (@fit_keeps_configuration scripted _data_subsample_with_seed tt tt (flat_scores 2)
           (fst (@fit scripted _data_subsample_with_seed tt tt (flat_scores 2)))).
  - apply surjective_pairing.
  - discriminate.
Defined.

Lemma fit_validation_gate_witness :
  check_is_fitted "ensembles_"
    (snd (@fit scripted _data_subsample_def tt tt (flat_scores 1)))
  = (Ok tt, snd (@fit scripted _data_subsample_def tt tt (flat_scores 1))).
Proof.
  apply (proj2 (@fit_validation_gate scripted _data_subsample_def tt tt (flat_scores 1)
                  (fst (@fit scripted _data_subsample_def tt tt (flat_scores 1)))
                  (snd (@fit scripted _data_subsample_def tt tt (flat_scores 1)))
                  (surjective_pairing _)) (tt, tt)).
  reflexivity.
Defined.

Lemma fit_asks_fit_then_predict_witness :
  exists k extra,
    clf_log (snd (@fit scripted _data_subsample_with_seed tt tt (flat_scores 2)))
    = clf_log (flat_scores 2) ++ clf_pairs k ++ extra /\
    (extra = [] \/ extra = [CallFit]) /\
    (CallPredictProba ∉ (clf_pairs k ++ extra)) /\
    (fst (@fit scripted _data_subsample_with_seed tt tt (flat_scores 2)) = Ok tt ->
     extra = [] /\
     forall T,
       fit_log (snd (@fit scripted _data_subsample_with_seed tt tt (flat_scores 2)))
       = fit_log (flat_scores 2) ++ T ->
       k = total_scores T).
Proof.
  apply (@fit_asks_fit_then_predict scripted _data_subsample_with_seed tt tt (flat_scores 2)).
  apply surjective_pairing.
Defined.

Lemma fit_with_empty_budget_witness :
  fst (@fit scripted _data_subsample_def tt tt no_budget) = Ok tt /\
  members (snd (@fit scripted _data_subsample_def tt tt no_budget)) = Some [] /\
  world (snd (@fit scripted _data_subsample_def tt tt no_budget)) = world no_budget /\
  fit_log (snd (@fit scripted _data_subsample_def tt tt no_budget)) = fit_log no_budget /\
  clf_log (snd (@fit scripted _data_subsample_def tt tt no_budget)) = clf_log no_budget.
Proof.
  apply (@fit_with_empty_budget scripted _data_subsample_def tt tt (tt, tt) None
           (tt, tt, tt, tt) (world no_budget) (-3) no_budget).
  - reflexivity.
  - vm_compute. reflexivity.
  - reflexivity.
  - vm_compute. reflexivity.
  - lia.
Defined.

Lemma init_stores_nine_attributes_witness :
  dom (attrs (flat_scores 1)) = init_names /\
  configured (flat_scores 1) 10 2 0%float.
Proof.
  destruct (@init_stores_nine_attributes scripted 10 "bootstrap" MAX_INP_SIZE MAX_FEAT_SIZE
              None 2 0%float 4 (mkScript (replicate 8 0.5%float) 1 0) (flat_scores 1))
    as (_ & _ & Hd & _ & _ & _ & Hc & _).
  - vm_compute. reflexivity.
  - split; assumption.
Defined.

Lemma predict_reads_unset_attribute_witness :
  @_predict scripted tt PyNone
    (snd (@fit scripted _data_subsample_with_seed tt tt (flat_scores 1)))
  = (Raise (AttributeError
       "'EnsembleTabPFN' object has no attribute 'n_ensemble_configurations'"),
     snd (@fit scripted _data_subsample_with_seed tt tt (flat_scores 1))).
Proof.
  destruct (@predict_reads_unset_attribute scripted 10 "bootstrap" MAX_INP_SIZE
              MAX_FEAT_SIZE None 2 0%float 4 (mkScript (replicate 8 0.5%float) 1 0)
              (flat_scores 1) _data_subsample_with_seed tt tt
              (fst (@fit scripted _data_subsample_with_seed tt tt (flat_scores 1)))
              (snd (@fit scripted _data_subsample_with_seed tt tt (flat_scores 1)))
              tt PyNone) as [_ H].
  - vm_compute. reflexivity.
  - apply surjective_pairing.
  - exact H.
Defined.

(** * The fit loop of the class as written *)

Section SourceLoop.
Context `{C : Collaborators}.

Lemma generate_ensembles_src_untouched X y s r s' :
  _generate_ensembles _data_subsample_def X y s = (r, s') -> untouched s s'.
Proof.
  unfold _generate_ensembles. intros H.
  pose proof (untouched_refl s) as U.
  eapply bind_untouched in H as [[D _] | (rs & s1 & U1 & H)];
    [exact D | | exact U | unfold as_seed; preserved framing_untouched].
  eapply bind_untouched in H as [[D _] | ([[[X_train X_val] y_train] y_val] & s2 & U2 & H)];
    [exact D | | exact U1 | apply preserves_ext, framing_untouched].
  eapply bind_untouched in H as [[D _] | (n & s3 & U3 & H)];
    [exact D | | exact U2 | unfold py_range, as_int; preserved framing_untouched].
  apply epochs_src in H as [-> _]. exact U3.
Qed.

Lemma generate_ensembles_src_raises X y s r s' n :
  attrs s !! "max_iters" = Some (PyInt n) -> 1 <= n ->
  _generate_ensembles _data_subsample_def X y s = (r, s') ->
  exists e, r = Raise e.
Proof.
  intros Hn Hpos. unfold _generate_ensembles. intros H.
  pose proof (same_self_refl s) as S.
  eapply bind_same_self in H as [[_ D] | (rs & s1 & S1 & H)];
    [exact D | | exact S | unfold as_seed; preserved framing_same_self].
  eapply bind_same_self in H as [[_ D] | ([[[X_train X_val] y_train] y_val] & s2 & S2 & H)];
    [exact D | | exact S1 | apply preserves_ext, framing_same_self].
  apply bind_inv in H as [(m & s3 & H3 & H) | (e & _ & ->)]; [ | eauto].
  apply bind_inv in H3 as [(v & s0 & H0 & H3) | (e & H0 & E)]; [ | discriminate E].
  apply getattr_inv in H0 as [-> [(v' & Hv & E) | (_ & ? & E)]]; [ | discriminate E].
  inversion E; subst v'; clear E. destruct S2 as [Ha _]. rewrite Ha, Hn in Hv.
  inversion Hv; subst v. inversion H3; subst.
  apply epochs_src in H as (_ & _ & Hr). apply Hr. lia.
Qed.

(** A call of [fit] of the class as written whose input passes the
    validation: the list is reset and nothing else of the estimator or of
    the two logs moves. *)
Lemma fit_src_quiet X y c s r s' :
  check_X_y X y = inr c ->
  fit _data_subsample_def X y s = (r, s') ->
  attrs s' = <["ensembles_" := PyList []]> (attrs s) /\
  fit_log s' = fit_log s /\ clf_log s' = clf_log s /\
  forall n, attrs s !! "max_iters" = Some (PyInt n) -> 1 <= n -> exists e, r = Raise e.
Proof.
  intros Hc H. unfold fit in H.
  apply bind_inv in H as [(c' & s1 & H1 & H) | (e & H1 & ->)].
  2:{ apply ext_inv in H1 as (_ & _ & _ & _ & E). cbn [fst] in E. rewrite Hc in E.
      discriminate E. }
  apply ext_inv in H1 as (Ha1 & Hf1 & Hl1 & _ & _).
  apply bind_inv in H as [(u & s2 & H2 & H) | (e & H2 & ->)]; [ | inversion H2].
  inversion H2; subst s2; clear H2.
  unfold call in H. apply bind_inv in H as [(u3 & s3 & H3 & H) | (e & H3 & ->)];
    [ | inversion H3].
  inversion H3; subst s3; clear H3.
  pose proof H as H'. apply generate_ensembles_src_untouched in H' as (Ha & Hf & Hl).
  cbn [attrs fit_log clf_log] in *.
  split; [congruence | ]. split; [congruence | ]. split; [congruence | ].
  intros n Hn Hpos. apply (generate_ensembles_src_raises _ _ _ _ _ n) in H; [exact H | | exact Hpos].
  cbn [attrs]. rewrite lookup_insert_ne by discriminate. rewrite Ha1. exact Hn.
Qed.

End SourceLoop.

(** * What the class as written does where the loop is specified *)

Section LoopClaims.
Context `{C : Collaborators}.

(** C1.  On the class as written the early stopping is never reached.
    Whatever the patience and the tolerance, a call of [fit] whose input
    passes the validation and whose budget is at least one pass raises:
    it completes no iteration, asks nothing of the classifier and leaves
    the list of members empty, where the claim has the loop stop after
    [early_stopping_rounds + 1] iterations. *)
Theorem fit_never_reaches_early_stopping X y c n s r s' :
  check_X_y X y = inr c ->
  attrs s !! "max_iters" = Some (PyInt n) ->
  1 <= n ->
  fit _data_subsample_def X y s = (r, s') ->
  (exists e, r = Raise e) /\
  (forall T, fit_log s' = fit_log s ++ T -> T = []) /\
  clf_log s' = clf_log s /\
  members s' = Some [].
Proof.
  intros Hc Hn Hpos H.
  destruct (fit_src_quiet X y c s r s' Hc H) as (Ha & Hf & Hl & Hr).
  split; [exact (Hr n Hn Hpos) | ].
  split.
  - intros T HT. rewrite Hf in HT.
    rewrite <- (app_nil_r (fit_log s)) in HT at 1.
    apply app_inv_head in HT. congruence.
  - split; [exact Hl | ]. unfold members. rewrite Ha, lookup_insert_eq. reflexivity.
Qed.



End LoopClaims.

(** C7.  The score the loop compares is an accuracy (source lines
    113-114), and the comparison of source line 130 takes the lower one
    for the better.  With a best score of 0.5 and a tolerance of 0.125,
    an accuracy of 0.875, which improves on the best by more than the
    tolerance, advances the counter and leaves the best score, and an
    accuracy of 0.25 resets the counter and becomes the best score; the
    loop over three feature groups scoring 0.5, 0.875 and 0.25 ends with
    0.25 as its best score. *)
Theorem accuracy_gain_ticks_counter :
  PrimFloat.ltb (0.5 + 0.125)%float 0.875%float = true /\
  score_group 0.5%float 3 0.125%float 0.875%float = (0.5%float, 4) /\
  score_group 0.5%float 3 0.125%float 0.25%float = (0.25%float, 0) /\
  fst (@eval_groups scripted [(tt, tt); (tt, tt); (tt, tt)] tt tt (infinity, 0) []
         rising_scores)
  = Ok ((0.25%float, 0), [0.5%float; 0.875%float; 0.25%float]).
Proof.
  repeat split; vm_compute; reflexivity.
Qed.

(** * Instances on the class as written *)

Lemma fit_never_reaches_early_stopping_witness :
  (exists e, fst (@fit scripted _data_subsample_def tt tt seeded) = Raise e) /\
  (forall T,
     fit_log (snd (@fit scripted _data_subsample_def tt tt seeded)) = fit_log seeded ++ T ->
     T = []) /\
  clf_log (snd (@fit scripted _data_subsample_def tt tt seeded)) = clf_log seeded /\
  members (snd (@fit scripted _data_subsample_def tt tt seeded)) = Some [].
Proof.
  apply (@fit_never_reaches_early_stopping scripted tt tt (tt, tt) 10 seeded).
  - reflexivity.
  - vm_compute. reflexivity.
  - lia.
  - apply surjective_pairing.
Defined.


(** Counterexample to C9 as first stated: a call of [fit] whose input the
    validation rejects raises before the reset and leaves the member of
    an earlier call in the list. *)
Lemma fit_rejected_keeps_earlier_members :
  @fit rejecting _data_subsample_def tt tt holding_one =
    (Raise (External "Found input variables with inconsistent numbers of samples"),
     holding_one) /\
  members (snd (@fit rejecting _data_subsample_def tt tt holding_one)) =
    Some [@mkEnsemble rejecting 5%nat 9%nat].
Proof.
  split; vm_compute; reflexivity.
Qed.
